(** * PAFER trading core: indicator engine, resonance signal engine,
      virtual trade simulator and the scoring stage of the optimizer.

    Shallow embedding of
      - core/strategy/indicators.py
      - core/strategy/paferr_strategy.py
      - core/exchange/huobi_executor.py
      - utils/optimization.py (the objective: parameter loop, replay loop
        and score)
      - config/settings.py
      - utils/helpers.py
      - core/exchange/huobi_client.py (the risk check)
      - core/database/db_manager.py (the trades and the configurations
        table, as the lists of rows the SQL statements leave)
      - core/exchange/realtime_engine.py (the bar buffer)
      - web/components/kline_chart.py (the maximum drawdown)

    Numbers.  The Python code computes on binary64 floats.  The embedding
    computes on exact rationals ([Q]), except for utils/helpers.py, which is
    embedded on binary64 itself; a float column that may hold NaN is a
    list of [option Q], [None] standing for NaN, and every comparison with
    NaN is false, as in NumPy.  Every rounding the source asks for
    explicitly ([round(x, n)]) is part of the model; the implicit rounding
    of float arithmetic is not.  [Qred] only normalises the representation
    of a rational ([Qred q == q]); it keeps evaluation on sample inputs
    fast.  Timestamps are integers (seconds).

    Effects.  The strategy and the simulator are passed and returned
    explicitly.  The [try] block of the simulator is a state-and-exception
    computation: a missing dict key raises [KeyError], a division of Python
    floats by zero raises [ZeroDivisionError], and the state reached when
    the exception is raised is the state the caller is left with.  The
    draws of NumPy's generator (the noise and the volumes of the synthetic
    bars of the optimizer, the slippage of a fill) are inputs. *)

From Stdlib Require Import Reals Qreals Lra.
From Stdlib Require Import String DecimalString ZArith QArith Qround Qabs Qminmax Bool List Lia Lqa.
From Stdlib Require Floats.
Import ListNotations.

Local Open Scope Q_scope.

(** ** Numbers and float columns *)

Module Num.

Definition Qltb (x y : Q) : bool := negb (Qle_bool y x).
Definition Qgtb (x y : Q) : bool := Qltb y x.
Definition Qgeb (x y : Q) : bool := Qle_bool y x.

(** A float that may be NaN. *)
#[warnings="-notation-for-abbreviation"]
Notation float := (option Q) (only parsing).

(** Comparisons of floats: false as soon as one side is NaN. *)
Definition fcmp (c : Q -> Q -> bool) (a b : float) : bool :=
  match a, b with
  | Some x, Some y => c x y
  | _, _ => false
  end.

Definition fop2 (f : Q -> Q -> Q) (a b : float) : float :=
  match a, b with
  | Some x, Some y => Some (f x y)
  | _, _ => None
  end.

Definition fop1 (f : Q -> Q) (a : float) : float := option_map f a.

(** [fillna(v)] on one cell. *)
Definition fillna (v : Q) (a : float) : Q :=
  match a with Some x => x | None => v end.

(** A pandas float Series. *)
#[warnings="-notation-for-abbreviation"]
Notation Series := (list (option Q)) (only parsing).

Fixpoint map2 {A B C} (f : A -> B -> C) (l : list A) (m : list B) : list C :=
  match l, m with
  | a :: l', b :: m' => f a b :: map2 f l' m'
  | _, _ => []
  end.

(** [s.shift(1)]: every value moves one row down, the first row is NaN. *)
Definition shift1 {A} (s : list (option A)) : list (option A) :=
  match s with
  | [] => []
  | _ => None :: removelast s
  end.

(** [s.diff()] is [s - s.shift(1)]. *)
Definition sdiff (s : Series) : Series := map2 (fop2 Qminus) s (shift1 s).

(** [s.tail(n)]: the last [n] rows. *)
Definition tail {A} (n : nat) (l : list A) : list A :=
  skipn (length l - n) l.

(** [s.iloc[-1]]. *)
Fixpoint iloc_last {A} (l : list A) : option A :=
  match l with
  | [] => None
  | x :: l' => match l' with [] => Some x | _ => iloc_last l' end
  end.

(** 1e-8, the epsilon guard of the indicator formulas. *)
Definition eps : Q := 1 # 100000000.

(** *** Exponentially weighted mean, [ewm(span=s, adjust=False).mean()] *)

Definition alpha_of_span (span : nat) : Q :=
  Qred (2 / (inject_Z (Z.of_nat span) + 1)).

(** The loop of pandas' [ewm] kernel with [adjust=False], [ignore_na=False]:
    [weighted] is the running mean (NaN before the first observation),
    [old_wt] the weight of the history, reset to 1 by every observation and
    decayed by every row. *)
Fixpoint ewm_loop (alpha : Q) (weighted : float) (old_wt : Q) (vals : Series)
  : Series :=
  match vals with
  | [] => []
  | cur :: rest =>
      match weighted with
      | Some w =>
          let old_wt1 := Qred (old_wt * (1 - alpha)) in
          match cur with
          | Some c =>
              let w' := if Qeq_bool w c then w
                        else Qred ((old_wt1 * w + alpha * c) / (old_wt1 + alpha)) in
              Some w' :: ewm_loop alpha (Some w') 1 rest
          | None => Some w :: ewm_loop alpha (Some w) old_wt1 rest
          end
      | None => cur :: ewm_loop alpha cur 1 rest
      end
  end.

Definition ewm_mean (span : nat) (vals : Series) : Series :=
  match vals with
  | [] => []
  | v0 :: rest => v0 :: ewm_loop (alpha_of_span span) v0 1 rest
  end.

(** *** Rolling windows, [rolling(window=n)] with [min_periods = n] *)

(** Rows [i-n+1 .. i] of a column. *)
Definition window_at {A} (n i : nat) (l : list A) : list A :=
  firstn n (skipn (i + 1 - n) l).

Definition rolling (n : nat) (agg : list Q -> Q) (col : list Q) : Series :=
  map (fun i => if ((1 <=? n) && (n <=? i + 1))%nat
                then Some (agg (window_at n i col)) else None)
      (seq 0 (length col)).

Definition Qsum (l : list Q) : Q := fold_right Qplus 0 l.

Definition Qmean (l : list Q) : Q :=
  Qred (Qsum l / inject_Z (Z.of_nat (length l))).

Definition Qmin_list (l : list Q) : Q :=
  match l with
  | [] => 0
  | x :: r => fold_left Qmin r x
  end.

Definition Qmax_list (l : list Q) : Q :=
  match l with
  | [] => 0
  | x :: r => fold_left Qmax r x
  end.

(** *** [round(x, ndigits)]: to the nearest multiple of 10^-ndigits, ties to
    the even one. *)

Definition round_half_even (x : Q) : Z :=
  let f := Qfloor x in
  let r := x - inject_Z f in
  if Qltb r (1 # 2) then f
  else if Qltb (1 # 2) r then (f + 1)%Z
  else if Z.even f then f else (f + 1)%Z.

Definition py_round (x : Q) (ndigits : nat) : Q :=
  let s := inject_Z (10 ^ Z.of_nat ndigits) in
  Qred (inject_Z (round_half_even (x * s)) / s).

End Num.
Import Num.

(** ** config/settings.py *)

Module Settings.

Record ExchangeConfig := {
  fee_rate_taker : Q;
  fee_rate_maker : Q;
  min_notional : Q
}.

Record RiskConfig := {
  max_loss_percent : Q;
  max_position_size_usd : Q;
  stop_loss_buffer : Q
}.

(** The window and span parameters are positive integers in the source;
    pandas rejects a span below 1. *)
Record StrategyConfig := {
  macd_fast : nat;
  macd_slow : nat;
  macd_signal : nat;
  kdj_period : nat;
  kdj_smooth_k : nat;
  kdj_smooth_d : nat;
  ma_short : nat;
  ma_mid : nat;
  ma_long : nat;
  max_klines_for_resonance : nat;
  momentum_threshold_pct : Q
}.

Record Config := {
  EXCHANGE : ExchangeConfig;
  RISK : RiskConfig;
  STRATEGY : StrategyConfig
}.

Definition default_exchange : ExchangeConfig :=
  {| fee_rate_taker := 6 # 10000; fee_rate_maker := 2 # 10000; min_notional := 5 |}.

Definition default_risk : RiskConfig :=
  {| max_loss_percent := 5; max_position_size_usd := 500;
     stop_loss_buffer := 3 # 1000 |}.

Definition default_strategy : StrategyConfig :=
  {| macd_fast := 3; macd_slow := 18; macd_signal := 6;
     kdj_period := 9; kdj_smooth_k := 3; kdj_smooth_d := 3;
     ma_short := 5; ma_mid := 10; ma_long := 45;
     max_klines_for_resonance := 4;
     momentum_threshold_pct := 15 |}.

Definition default_config : Config :=
  {| EXCHANGE := default_exchange; RISK := default_risk;
     STRATEGY := default_strategy |}.

End Settings.
Import Settings.

(** ** core/strategy/indicators.py *)

Module Indicators.

(** One OHLCV bar; a DataFrame of bars is a [list Bar], oldest first. *)
Record Bar := {
  timestamp : Z;
  open : Q;
  high : Q;
  low : Q;
  close : Q;
  volume : Q
}.

(** The columns [calculate_macd] adds, row by row. *)
Record MacdCols := {
  c_macd_line : float;
  c_macd_signal : float;
  c_macd_hist : float;
  c_macd_drift : Z;
  c_macd_momentum_pct : float
}.

Definition b2z (b : bool) : Z := if b then 1%Z else 0%Z.

(** The drift mask of one row: [diff], [diff.shift(1)], the two lines. *)
Definition drift_cell (d dprev line sig : float) : bool :=
  (fcmp Qgtb d (Some 0) && fcmp Qltb dprev d && fcmp Qltb line sig)
  || (fcmp Qltb d (Some 0) && fcmp Qgtb dprev d && fcmp Qgtb line sig).

Fixpoint map4 {A B C D E} (f : A -> B -> C -> D -> E)
  (a : list A) (b : list B) (c : list C) (d : list D) : list E :=
  match a, b, c, d with
  | x :: a', y :: b', z :: c', w :: d' => f x y z w :: map4 f a' b' c' d'
  | _, _, _, _ => []
  end.

Definition macd_drift_mask (macd_line signal_line : Series) : list bool :=
  let diff := map2 (fop2 Qminus) macd_line signal_line in
  map4 drift_cell diff (shift1 diff) macd_line signal_line.

Definition calculate_macd (df : list Bar) (fast slow signal : nat)
  : list MacdCols :=
  let close := map (fun b => Some (close b)) df in
  let ema_fast := ewm_mean fast close in
  let ema_slow := ewm_mean slow close in
  let macd_line := map2 (fop2 (fun x y => Qred (x - y))) ema_fast ema_slow in
  let signal_line := ewm_mean signal macd_line in
  let macd_hist := map2 (fop2 (fun x y => Qred (x - y))) macd_line signal_line in
  let is_drift := macd_drift_mask macd_line signal_line in
  let hist_area := map (fop1 Qabs) macd_hist in
  let hist_momentum :=
    map2 (fop2 (fun a p => Qred ((a - p) / (p + eps) * 100)))
         hist_area (shift1 hist_area) in
  map2 (fun '(l, s) '(h, (d, m)) =>
          {| c_macd_line := l; c_macd_signal := s; c_macd_hist := h;
             c_macd_drift := b2z d; c_macd_momentum_pct := m |})
       (combine macd_line signal_line)
       (combine macd_hist (combine is_drift hist_momentum)).

Record KdjCols := {
  c_kdj_k : float;
  c_kdj_d : float;
  c_kdj_j : float;
  c_kdj_k_slope : Q
}.

(** [x / y] on floats; a zero divisor gives no finite value. *)
Definition fdiv (x y : Q) : float :=
  if Qeq_bool y 0 then None else Some (Qred (x / y)).

Definition calculate_kdj (df : list Bar) (period smooth_k smooth_d : nat)
  : list KdjCols :=
  let ll := rolling period Qmin_list (map low df) in
  let hh := rolling period Qmax_list (map high df) in
  let close := map (fun b => Some (close b)) df in
  let num := map2 (fop2 Qminus) close ll in
  let den := map2 (fop2 (fun h l => h - l + eps)) hh ll in
  let rsv := map2 (fun n d =>
                     match n, d with
                     | Some x, Some y => fop1 (fun q => Qred (q * 100)) (fdiv x y)
                     | _, _ => None
                     end) num den in
  let k := ewm_mean smooth_k rsv in
  let d := ewm_mean smooth_d k in
  let j := map2 (fop2 (fun kv dv => Qred (3 * kv - 2 * dv))) k d in
  let k_slope := map (fun x => Qred (fillna 0 x * 100)) (sdiff k) in
  map2 (fun '(kv, dv) '(jv, sl) =>
          {| c_kdj_k := kv; c_kdj_d := dv; c_kdj_j := jv; c_kdj_k_slope := sl |})
       (combine k d) (combine j k_slope).

Record MaCols := {
  c_ma5 : float;
  c_ma10 : float;
  c_ma45 : float;
  c_ma45_stable : Z
}.

Definition calculate_ma (df : list Bar) (ma5 ma10 ma45 : nat) : list MaCols :=
  let closeq := map close df in
  let close := map (fun b => Some (close b)) df in
  let s5 := rolling ma5 Qmean closeq in
  let s10 := rolling ma10 Qmean closeq in
  let s45 := rolling ma45 Qmean closeq in
  let ge := map2 (fcmp Qgeb) close s45 in
  let ge_prev := map2 (fcmp Qgeb) (shift1 close) (shift1 s45) in
  let stable := map2 andb ge ge_prev in
  map2 (fun '(a, b) '(c, s) =>
          {| c_ma5 := a; c_ma10 := b; c_ma45 := c; c_ma45_stable := b2z s |})
       (combine s5 s10) (combine s45 stable).

(** A row of the indicator frame: the bar and every derived column. *)
Record Row := {
  bar : Bar;
  macd : MacdCols;
  kdj : KdjCols;
  ma : MaCols
}.

Definition macd_line (r : Row) := c_macd_line (macd r).
Definition macd_signal_line (r : Row) := c_macd_signal (macd r).
Definition macd_hist (r : Row) := c_macd_hist (macd r).
Definition macd_drift (r : Row) := c_macd_drift (macd r).
Definition macd_momentum_pct (r : Row) := c_macd_momentum_pct (macd r).
Definition kdj_k_slope (r : Row) := c_kdj_k_slope (kdj r).
Definition ma45 (r : Row) := c_ma45 (ma r).

Definition add_paferr_features (df : list Bar) (config : StrategyConfig)
  : list Row :=
  let m := calculate_macd df (macd_fast config) (macd_slow config)
                          (macd_signal config) in
  let k := calculate_kdj df (kdj_period config) (kdj_smooth_k config)
                         (kdj_smooth_d config) in
  let a := calculate_ma df (ma_short config) (ma_mid config) (ma_long config) in
  map4 (fun b mc kc ac => {| bar := b; macd := mc; kdj := kc; ma := ac |})
       df m k a.

End Indicators.
Import Indicators.

(** ** core/strategy/paferr_strategy.py *)

Module Strategy.

Inductive Action := buy | sell | hold.

Definition Action_eqb (a b : Action) : bool :=
  match a, b with
  | buy, buy | sell, sell | hold, hold => true
  | _, _ => false
  end.

(** The signal dict.  A key the dict does not hold is [None]: the hold
    signal carries only ['action'] and ['reason'].  The two price levels
    are floats (the stop is derived from the long MA, NaN during warm-up). *)
Record Signal := {
  action : Action;
  reason : option string;
  confidence : option Q;
  stop_loss : option float;
  take_profit : option float;
  leverage : option Z
}.

(** The mutable part of a [PAFERStrategy] instance. *)
Record PAFERStrategy := {
  config : StrategyConfig;
  last_signal_time : option Z;
  signal_cooldown : Z
}.

(** [__init__]: no signal yet, cooldown of 15 minutes. *)
Definition init (cfg : StrategyConfig) : PAFERStrategy :=
  {| config := cfg; last_signal_time := None; signal_cooldown := 15 * 60 |}.

Definition reset (self : PAFERStrategy) : PAFERStrategy :=
  {| config := config self; last_signal_time := None;
     signal_cooldown := signal_cooldown self |}.

(** *** Resampling: [df.resample(rule, on='timestamp').agg(...).dropna()] *)

(** Left edge of the bin of width [w] seconds that holds [ts]. *)
Definition bin_of (w ts : Z) : Z := (ts / w * w)%Z.

(** pandas sorts the rows by the resampling key (a stable sort). *)
Fixpoint insert_by_time (b : Bar) (l : list Bar) : list Bar :=
  match l with
  | [] => [b]
  | c :: l' => if (timestamp b <=? timestamp c)%Z then b :: l
               else c :: insert_by_time b l'
  end.

Definition sort_by_time (df : list Bar) : list Bar :=
  fold_right insert_by_time [] df.

(** [cur] aggregates the rows of the open bin: open = first, high = max,
    low = min, close = last, volume = sum.  A bin without rows has NaN
    prices and is dropped by [dropna], so only bins with rows come out. *)
Fixpoint resample_loop (w : Z) (cur : Bar) (rest : list Bar) : list Bar :=
  match rest with
  | [] => [cur]
  | b :: rest' =>
      if (bin_of w (timestamp b) =? timestamp cur)%Z
      then resample_loop w
             {| timestamp := timestamp cur; open := open cur;
                high := Qmax (high cur) (high b);
                low := Qmin (low cur) (low b);
                close := close b;
                volume := Qred (volume cur + volume b) |} rest'
      else cur :: resample_loop w
             {| timestamp := bin_of w (timestamp b); open := open b;
                high := high b; low := low b; close := close b;
                volume := volume b |} rest'
  end.

Definition resample (w : Z) (df : list Bar) : list Bar :=
  match sort_by_time df with
  | [] => []
  | b :: rest =>
      resample_loop w
        {| timestamp := bin_of w (timestamp b); open := open b;
           high := high b; low := low b; close := close b;
           volume := volume b |} rest
  end.

(** *** Resonance *)

(** [get_trend_status] returns the Python constant [False] on its guard and
    a NumPy boolean otherwise (a comparison of two NumPy floats); the two
    are told apart by [resonance['4h'] is False]. *)
Inductive TrendFlag := PyBool (b : bool) | NpBool (b : bool).

Definition truth (f : TrendFlag) : bool :=
  match f with PyBool b | NpBool b => b end.

(** [f is False]: identity with the Python constant. *)
Definition is_False (f : TrendFlag) : bool :=
  match f with PyBool false => true | _ => false end.

Definition get_trend_status (_df : list Row) : TrendFlag :=
  if (length _df <? 2)%nat then PyBool false
  else match iloc_last _df with
       | None => PyBool false
       | Some r =>
           NpBool (fcmp Qgtb (Some (close (bar r))) (ma45 r)
                   && fcmp Qgtb (macd_hist r) (Some 0))
       end.

Record Resonance := {
  r15m : TrendFlag;
  r30m : TrendFlag;
  r1h : TrendFlag;
  r4h : TrendFlag
}.

(** One aggregate of [_check_resonance]: the indicator frame when it has at
    least 50 bars, the empty DataFrame otherwise. *)
Definition aggregate_frame (cfg : StrategyConfig) (w : Z) (df : list Row)
  : list Row :=
  let agg := resample w (map bar df) in
  if (50 <=? length agg)%nat then add_paferr_features agg cfg else [].

Definition _check_resonance (self : PAFERStrategy) (df : list Row)
  : Resonance :=
  let df_15m := df in
  let df_30m := aggregate_frame (config self) (30 * 60) df in
  let df_1h := aggregate_frame (config self) (60 * 60) df in
  let df_4h := aggregate_frame (config self) (4 * 60 * 60) df in
  {| r15m := get_trend_status df_15m;
     r30m := get_trend_status df_30m;
     r1h := get_trend_status df_1h;
     r4h := get_trend_status df_4h |}.

(** [sum(resonance.values())] *)
Definition total_resonance (r : Resonance) : Z :=
  (b2z (truth (r15m r)) + b2z (truth (r30m r))
   + b2z (truth (r1h r)) + b2z (truth (r4h r)))%Z.

Definition is_bullish (r : Resonance) : bool := (3 <=? total_resonance r)%Z.

Definition is_bearish (r : Resonance) : bool :=
  (total_resonance r =? 0)%Z && is_False (r4h r).

Definition _check_momentum (self : PAFERStrategy) (df : list Row) : bool :=
  match iloc_last df with
  | None => false
  | Some latest =>
      fcmp Qgtb (fop1 Qabs (macd_momentum_pct latest))
           (Some (momentum_threshold_pct (config self)))
      && Qgtb (Qabs (kdj_k_slope latest)) 25
  end.

Definition _check_timeliness (self : PAFERStrategy) (df : list Row) : bool :=
  let n := max_klines_for_resonance (config self) in
  let recent := tail n df in
  (n <=? length (filter (fun r => fcmp Qgtb (Some (close (bar r))) (ma45 r))
                        recent))%nat.

Definition _check_drift_accumulation (df : list Row) (window : nat) : Z :=
  fold_right Z.add 0%Z (map macd_drift (tail window df)).

Definition string_of_Z (z : Z) : string := NilZero.string_of_int (Z.to_int z).

(** The three dicts [generate_signal] returns. *)
Definition leverage_of (drift_count : Z) : Z :=
  Z.min 50 (Z.max 20 (20 + drift_count * 5)).

Definition buy_signal (risk : RiskConfig) (latest : Row) (total drift_count : Z)
  : Signal :=
  let sl := fop1 (fun m => m * (1 - stop_loss_buffer risk)) (ma45 latest) in
  let tp := high (bar latest)
            + (15 # 10) * (high (bar latest) - low (bar latest)) in
  {| action := buy;
     reason := Some ("PAFER Bullish Resonance(" ++ string_of_Z total
                     ++ "/4)+Momentum+Timely")%string;
     confidence := Some ((7 # 10) + (1 # 10) * inject_Z drift_count);
     stop_loss := Some sl;
     take_profit := Some (Some tp);
     leverage := Some (leverage_of drift_count) |}.

Definition sell_signal (risk : RiskConfig) (latest : Row) (drift_count : Z)
  : Signal :=
  let sl := fop1 (fun m => m * (1 + stop_loss_buffer risk)) (ma45 latest) in
  let tp := low (bar latest)
            - (15 # 10) * (high (bar latest) - low (bar latest)) in
  {| action := sell;
     reason := Some "PAFER Bearish Resonance(0/4)+Momentum+Timely"%string;
     confidence := Some ((65 # 100) + (1 # 10) * inject_Z drift_count);
     stop_loss := Some sl;
     take_profit := Some (Some tp);
     leverage := Some (leverage_of drift_count) |}.

Definition hold_signal : Signal :=
  {| action := hold; reason := Some "No valid PAFER signal"%string;
     confidence := None; stop_loss := None; take_profit := None;
     leverage := None |}.

(** [now - self.last_signal_time < self.signal_cooldown], false when no
    signal was emitted yet. *)
Definition cooling_down (self : PAFERStrategy) (now : Z) : bool :=
  match last_signal_time self with
  | Some t => (now - t <? signal_cooldown self)%Z
  | None => false
  end.

Definition fired (self : PAFERStrategy) (now : Z) : PAFERStrategy :=
  {| config := config self; last_signal_time := Some now;
     signal_cooldown := signal_cooldown self |}.

(** [generate_signal]: the returned value ([None] is "no signal") and the
    instance after the call.  [risk] is the global [Config.RISK]. *)
Definition generate_signal (risk : RiskConfig) (self : PAFERStrategy)
  (df : list Bar) : option Signal * PAFERStrategy :=
  if (length df <? 50)%nat then (None, self)
  else
    let df := add_paferr_features df (config self) in
    match iloc_last df with
    | None => (None, self)
    | Some latest =>
        let now := timestamp (bar latest) in
        if cooling_down self now then (None, self)
        else
          let resonance := _check_resonance self df in
          let total := total_resonance resonance in
          let has_momentum := _check_momentum self df in
          let is_timely := _check_timeliness self df in
          let drift_count := _check_drift_accumulation df 5 in
          if is_bullish resonance && has_momentum && is_timely then
            (Some (buy_signal risk latest total drift_count), fired self now)
          else if is_bearish resonance && has_momentum && is_timely then
            (Some (sell_signal risk latest drift_count), fired self now)
          else (Some hold_signal, self)
    end.

End Strategy.
Import Strategy.

(** ** core/exchange/huobi_executor.py *)

Module Executor.

(** The trade dict built by [execute_virtual_trade].  [open_time] and
    [close_time] are [timestamp.isoformat()], kept as the timestamp. *)
Record Trade := {
  trade_id : string;
  side : Action;
  open_time : Z;
  open_price : Q;
  close_time : Z;
  close_price : Q;
  pnl : Q;
  fee : Q;
  net_pnl : Q;
  balance_after : Q;
  trade_reason : string
}.

(** What the call returns: [{'status': 'ignored'}], the trade dict, or
    [{'status': 'error', 'message': str(e)}]. *)
Inductive Result :=
| Ignored
| Executed (t : Trade)
| Failed (message : string).

(** The simulator: the virtual account, and the rows handed to the
    persistence collaborator ([db.save_virtual_trade] logs its own failures
    and never raises). *)
Record TradeExecutor := {
  db : list Trade;
  virtual_balance : Q;
  virtual_trades : list Trade
}.

Definition new_executor : TradeExecutor :=
  {| db := []; virtual_balance := 100; virtual_trades := [] |}.

(** *** The body of the [try] block: state and exceptions *)

Inductive Exn :=
| KeyError (key : string)
| ZeroDivisionError.

Definition str (e : Exn) : string :=
  match e with
  | KeyError k => ("'" ++ k ++ "'")%string
  | ZeroDivisionError => "float division by zero"%string
  end.

(** A computation on the simulator that may raise; the state reached when
    the exception is raised is kept, as Python keeps it. *)
Definition M (A : Type) : Type := TradeExecutor -> (Exn + A) * TradeExecutor.

Definition ret {A} (a : A) : M A := fun s => (inr a, s).

Definition bind {A B} (m : M A) (k : A -> M B) : M B :=
  fun s => match m s with
           | (inl e, s') => (inl e, s')
           | (inr a, s') => k a s'
           end.

Definition raise {A} (e : Exn) : M A := fun s => (inl e, s).

Definition get : M TradeExecutor := fun s => (inr s, s).

Definition put (s : TradeExecutor) : M unit := fun _ => (inr tt, s).

Notation "x <- m ;; k" := (bind m (fun x => k))
  (at level 61, m at next level, right associativity).
Notation "m ;;; k" := (bind m (fun _ => k))
  (at level 61, right associativity).

(** [d[key]] *)
Definition getitem {A} (key : string) (v : option A) : M A :=
  match v with
  | Some a => ret a
  | None => raise (KeyError key)
  end.

(** [x / y] on Python floats: a zero divisor raises.  (On NumPy floats the
    same division gives NaN or an infinity and does not raise; the
    divisor here is the fill price, and the statements that depend on the
    difference exclude a fill price of zero.) *)
Definition truediv (x y : Q) : M Q :=
  if Qeq_bool y 0 then raise ZeroDivisionError else ret (x / y).

Definition reset_virtual_account : M unit :=
  self <- get ;;
  put {| db := db self; virtual_balance := 100; virtual_trades := [] |}.

(** [db.save_virtual_trade(trade)] *)
Definition save_virtual_trade (t : Trade) : M unit :=
  self <- get ;;
  put {| db := db self ++ [t]; virtual_balance := virtual_balance self;
         virtual_trades := virtual_trades self |}.

(** utils/helpers.py, [calculate_slippage(price, 'market')]: [vol_factor] is
    the uniform draw from [0.0002, 0.0015), [noise] the normal draw. *)
Definition calculate_slippage (vol_factor noise : Q) : Q :=
  vol_factor * (1 + noise).

Definition size_usd_of (balance : Q) : Q := Qmin 50 (balance * (8 # 10)).

Definition exec_price_of (a : Action) (price slippage : Q) : Q :=
  match a with
  | buy => price * (1 + slippage)
  | _ => price * (1 - slippage)
  end.

(** The fill-time profit and loss (the [if]/[elif] ladder). *)
Definition simulate_pnl (signal : Signal) (size_usd fee exec_price : Q) : M Q :=
  match action signal with
  | buy =>
      sl <- getitem "stop_loss" (stop_loss signal) ;;
      if fcmp Qle_bool (Some exec_price) sl then
        q <- truediv (- size_usd * (exec_price - fillna 0 sl)) exec_price ;;
        ret (q - fee)
      else
        tp <- getitem "take_profit" (take_profit signal) ;;
        if fcmp Qgeb (Some exec_price) tp then
          q <- truediv (size_usd * (exec_price - fillna 0 tp)) exec_price ;;
          ret (q - fee)
        else ret 0
  | _ =>
      sl <- getitem "stop_loss" (stop_loss signal) ;;
      if fcmp Qgeb (Some exec_price) sl then
        q <- truediv (- size_usd * (exec_price - fillna 0 sl)) exec_price ;;
        ret (q - fee)
      else
        tp <- getitem "take_profit" (take_profit signal) ;;
        if fcmp Qle_bool (Some exec_price) tp then
          q <- truediv (size_usd * (fillna 0 tp - exec_price)) exec_price ;;
          ret (q - fee)
        else ret 0
  end.

(** The trade dict, every amount rounded as the source rounds it. *)
Definition trade_dict (signal : Signal) (reason : string) (timestamp : Z)
  (exec_price pnl fee new_balance : Q) : Trade :=
  {| trade_id := ("VIRT_" ++ string_of_Z timestamp)%string;
     side := action signal;
     open_time := timestamp;
     open_price := py_round exec_price 4;
     close_time := timestamp;
     close_price := py_round exec_price 4;
     pnl := py_round pnl 6;
     fee := py_round fee 6;
     net_pnl := py_round (pnl - fee) 6;
     balance_after := py_round new_balance 4;
     trade_reason := reason |}.

Definition try_body (exch : ExchangeConfig) (signal : Signal)
  (price slippage : Q) (timestamp : Z) : M Trade :=
  self <- get ;;
  let size_usd := size_usd_of (virtual_balance self) in
  let fee := size_usd * fee_rate_taker exch in
  let exec_price := exec_price_of (action signal) price slippage in
  pnl <- simulate_pnl signal size_usd fee exec_price ;;
  let new_balance := virtual_balance self + pnl in
  let is_bankrupt := Qltb new_balance 10 in
  (if is_bankrupt then reset_virtual_account else ret tt) ;;;
  let new_balance := if is_bankrupt then 100 else new_balance in
  reason <- getitem "reason" (reason signal) ;;
  let trade := trade_dict signal reason timestamp exec_price pnl fee
                          new_balance in
  save_virtual_trade trade ;;;
  self <- get ;;
  put {| db := db self; virtual_balance := new_balance;
         virtual_trades := virtual_trades self ++ [trade] |} ;;;
  ret trade.

(** [execute_virtual_trade(signal, price, timestamp)], with the slippage
    drawn by [calculate_slippage] as an argument. *)
Definition execute_virtual_trade (exch : ExchangeConfig) (self : TradeExecutor)
  (signal : Signal) (price slippage : Q) (timestamp : Z)
  : Result * TradeExecutor :=
  match action signal with
  | hold => (Ignored, self)
  | _ =>
      match try_body exch signal price slippage timestamp self with
      | (inr trade, self') => (Executed trade, self')
      | (inl e, self') => (Failed (str e), self')
      end
  end.

(** Two views of [try_body] used to state its paths: the simulator between
    the bankruptcy test and the construction of the trade dict, and the
    balance the call settles on. *)
Definition after_bankruptcy_test (self : TradeExecutor) (pnl : Q)
  : TradeExecutor :=
  if Qltb (virtual_balance self + pnl) 10
  then {| db := db self; virtual_balance := 100; virtual_trades := [] |}
  else self.

Definition settled_balance (self : TradeExecutor) (pnl : Q) : Q :=
  if Qltb (virtual_balance self + pnl) 10 then 100
  else virtual_balance self + pnl.

End Executor.
Import Executor.

(** ** utils/optimization.py *)

Module Optimizer.

(** *** The replay loop of [_objective_function]

    [df_sim] is the synthetic bar sequence (drawn from a seeded generator in
    the source), [slippage i] the slippage drawn when the window ending at
    row [i] trades.  The strategy and the executor are the shared instances
    of the optimizer and keep their state from one call to the next.
    [replay_loop] is the loop on a strategy whose
    [max_klines_for_resonance] is an int, as the configuration has it
    before a trial writes it; [replay_loop_tuned] below is the loop on the
    configuration that a trial has written. *)



(** *** The parameters of a trial

    [_objective_function] first writes its keyword arguments [params] into
    the configuration of the shared strategy: every attribute as [int(v)],
    except [momentum_threshold_pct] and [max_klines_for_resonance], which
    are written as [float(v)]. *)

(** A keyword argument: a Python [int] or [float]. *)
Inductive ParamValue := PyInt (z : Z) | PyFloat (q : Q).

Definition float_of (v : ParamValue) : Q :=
  match v with PyInt z => inject_Z z | PyFloat q => q end.

(** [int(v)]: truncation toward zero. *)
Definition int_of (v : ParamValue) : Z :=
  match v with
  | PyInt z => z
  | PyFloat q => Z.quot (Qnum q) (Z.pos (Qden q))
  end.

(** The strategy object as the optimizer holds it.  [klines_float] is the
    float that the parameter loop has put in [max_klines_for_resonance]
    ([None] while that attribute is still the int of the configuration). *)
Record TunedStrategy := {
  instance : PAFERStrategy;
  klines_float : option Q
}.

(** [setattr(config, k, n)] for the integer attributes; a name the
    configuration does not have changes nothing ([hasattr] is false). *)
Definition set_int (k : string) (n : nat) (c : StrategyConfig)
  : StrategyConfig :=
  let f name old := if String.eqb name k then n else old in
  {| macd_fast := f "macd_fast"%string (macd_fast c);
     macd_slow := f "macd_slow"%string (macd_slow c);
     macd_signal := f "macd_signal"%string (macd_signal c);
     kdj_period := f "kdj_period"%string (kdj_period c);
     kdj_smooth_k := f "kdj_smooth_k"%string (kdj_smooth_k c);
     kdj_smooth_d := f "kdj_smooth_d"%string (kdj_smooth_d c);
     ma_short := f "ma_short"%string (ma_short c);
     ma_mid := f "ma_mid"%string (ma_mid c);
     ma_long := f "ma_long"%string (ma_long c);
     max_klines_for_resonance := max_klines_for_resonance c;
     momentum_threshold_pct := momentum_threshold_pct c |}.

Definition with_config (self : TunedStrategy) (c : StrategyConfig)
  (klines : option Q) : TunedStrategy :=
  {| instance := {| config := c;
                    last_signal_time := last_signal_time (instance self);
                    signal_cooldown := signal_cooldown (instance self) |};
     klines_float := klines |}.

(** One turn of the parameter loop.  The integer parameters are windows
    and spans of at least 1 in both optimizers.  A float 0.0 in
    [max_klines_for_resonance] behaves as the int 0 ([df.tail(0.0)] is the
    empty frame), which the configuration then holds; any other float is
    only kept in [klines_float]. *)
Definition write_param (self : TunedStrategy) (kv : string * ParamValue)
  : TunedStrategy :=
  let '(k, v) := kv in
  let c := config (instance self) in
  if String.eqb k "momentum_threshold_pct" then
    with_config self
      {| macd_fast := macd_fast c; macd_slow := macd_slow c;
         macd_signal := macd_signal c; kdj_period := kdj_period c;
         kdj_smooth_k := kdj_smooth_k c; kdj_smooth_d := kdj_smooth_d c;
         ma_short := ma_short c; ma_mid := ma_mid c; ma_long := ma_long c;
         max_klines_for_resonance := max_klines_for_resonance c;
         momentum_threshold_pct := float_of v |}
      (klines_float self)
  else if String.eqb k "max_klines_for_resonance" then
    with_config self
      {| macd_fast := macd_fast c; macd_slow := macd_slow c;
         macd_signal := macd_signal c; kdj_period := kdj_period c;
         kdj_smooth_k := kdj_smooth_k c; kdj_smooth_d := kdj_smooth_d c;
         ma_short := ma_short c; ma_mid := ma_mid c; ma_long := ma_long c;
         max_klines_for_resonance := 0;
         momentum_threshold_pct := momentum_threshold_pct c |}
      (Some (float_of v))
  else
    with_config self (set_int k (Z.to_nat (int_of v)) c) (klines_float self).

Definition write_params (params : list (string * ParamValue))
  (self : TunedStrategy) : TunedStrategy :=
  fold_left write_param params self.

(** *** The replay on the written configuration *)

Inductive OptExn := TypeError.

(** [generate_signal] on the strategy of the optimizer.  With a float other
    than 0.0 in [max_klines_for_resonance], [_check_timeliness] calls
    [df.tail] with a float and pandas raises [TypeError]; the call gets
    there once the frame has 50 bars and the cooldown does not block
    ([_check_resonance] and [_check_momentum], which come first, neither
    raise nor write). *)
Definition generate_signal_tuned (risk : RiskConfig) (self : TunedStrategy)
  (df : list Bar) : (OptExn + option Signal) * TunedStrategy :=
  let plain :=
    let '(signal, instance') := generate_signal risk (instance self) df in
    (inr signal, {| instance := instance';
                    klines_float := klines_float self |}) in
  match klines_float self with
  | None => plain
  | Some q =>
      if Qeq_bool q 0 then plain
      else if (length df <? 50)%nat then (inr None, self)
      else
        match iloc_last (add_paferr_features df (config (instance self))) with
        | None => (inr None, self)
        | Some latest =>
            if cooling_down (instance self) (timestamp (bar latest))
            then (inr None, self)
            else (inl TypeError, self)
        end
  end.

(** The loop of [_objective_function], left by the first exception. *)
Fixpoint replay_loop_tuned (risk : RiskConfig) (exch : ExchangeConfig)
  (slippage : nat -> Q) (df_sim : list Bar) (range : list nat)
  (strategy : TunedStrategy) (executor : TradeExecutor) (trades : list Trade)
  : (OptExn + list Trade) * TunedStrategy * TradeExecutor :=
  match range with
  | [] => (inr trades, strategy, executor)
  | i :: range' =>
      let window := firstn (i + 1) df_sim in
      match generate_signal_tuned risk strategy window with
      | (inl e, strategy') => (inl e, strategy', executor)
      | (inr signal, strategy') =>
          match signal, iloc_last window with
          | Some s, Some latest =>
              match action s with
              | hold => replay_loop_tuned risk exch slippage df_sim range'
                                          strategy' executor trades
              | _ =>
                  let '(trade, executor') :=
                    execute_virtual_trade exch executor s (close latest)
                                          (slippage i) (timestamp latest) in
                  match trade with
                  | Executed t =>
                      replay_loop_tuned risk exch slippage df_sim range'
                                        strategy' executor' (trades ++ [t])
                  | _ => replay_loop_tuned risk exch slippage df_sim range'
                                           strategy' executor' trades
                  end
              end
          | _, _ => replay_loop_tuned risk exch slippage df_sim range'
                                      strategy' executor trades
          end
      end
  end.

Definition replay_tuned (risk : RiskConfig) (exch : ExchangeConfig)
  (slippage : nat -> Q) (df_sim : list Bar)
  (strategy : TunedStrategy) (executor : TradeExecutor)
  : (OptExn + list Trade) * TunedStrategy * TradeExecutor :=
  replay_loop_tuned risk exch slippage df_sim
                    (seq 10 (length df_sim - 10)) strategy executor [].

(** The 100 synthetic bars: [noise i] is the [i]-th draw of
    [np.random.randn(100)], [volume i] the [i]-th draw of
    [np.random.randint(100, 500, 100)]; the prices are
    [3000 + cumsum(noise * 3)] and the bars follow one another by 15
    minutes from 2024-01-01. *)
Definition df_sim_of (noise volume : nat -> Q) : list Bar :=
  map (fun i =>
         let price := 3000 + Qsum (map (fun j => noise j * 3) (seq 0 (i + 1))) in
         {| timestamp := 1704067200 + 900 * Z.of_nat i;
            open := price - 1; high := price + 2; low := price - 2;
            close := price; volume := volume i |})
      (seq 0 100).

(** *** The score, on real numbers

    [np.mean] and [np.std] are taken on exact reals: the guard on a zero
    standard deviation fires in the model for any equal returns, while in
    binary64 the deviation of equal returns need not be exactly 0.  No
    statement below rests on that guard. *)

Local Open Scope R_scope.

Definition Rsum (l : list R) : R := fold_right Rplus 0 l.

(** [np.mean] *)
Definition mean (l : list R) : R := Rsum l / INR (length l).

(** [np.std], the population standard deviation. *)
Definition std (l : list R) : R :=
  sqrt (mean (map (fun x => (x - mean l) * (x - mean l)) l)).

Definition Rgtb (x y : R) : bool := if Rlt_dec y x then true else false.

Definition Reqb (x y : R) : bool := if Req_dec_T x y then true else false.

(** The optimizer: the best score seen, [None] for minus infinity. *)
Record AutoOptimizer := {
  best_score : option R
}.

Definition exceeds (score : R) (best : option R) : bool :=
  match best with
  | None => true
  | Some b => Rgtb score b
  end.

(** The score of the trades a replay collected, and the optimizer after the
    call.  Saving the trial to the database sits in its own [try] block and
    has no part in the score. *)
Definition score_trades (self : AutoOptimizer) (trades : list Trade)
  : R * AutoOptimizer :=
  if (length trades <? 5)%nat then (-1, self)
  else
    let pnls := map (fun t => Q2R (net_pnl t)) trades in
    let returns := map (fun p => p / 100) pnls in
    if (length returns =? 0)%nat || Reqb (std returns) 0 then (-1, self)
    else
      let sharpe := mean returns / (std returns + / 100000000) * sqrt (252 * 4) in
      let win_rate := INR (length (filter (fun p => Rgtb p 0) pnls))
                      / INR (length pnls) in
      let score := (7 / 10) * sharpe + (3 / 10) * win_rate in
      (score, if exceeds score (best_score self)
              then {| best_score := Some score |} else self).

(** [_objective_function], called with the keyword arguments [params]:
    the parameter loop, the synthetic
    bars, the replay and the score.  The draws of NumPy's generator
    ([noise], [volume], and [slippage i] for the fill at row [i]) are
    arguments; the result is the returned score or the exception that
    leaves the call, with the optimizer, the strategy and the simulator
    after the call. *)
Definition _objective_function (risk : RiskConfig) (exch : ExchangeConfig)
  (noise volume slippage : nat -> Q) (self : AutoOptimizer)
  (strategy : TunedStrategy) (executor : TradeExecutor)
  (params : list (string * ParamValue))
  : (OptExn + R) * AutoOptimizer * TunedStrategy * TradeExecutor :=
  let strategy := write_params params strategy in
  let df_sim := df_sim_of noise volume in
  match replay_tuned risk exch slippage df_sim strategy executor with
  | (inl e, strategy', executor') => (inl e, self, strategy', executor')
  | (inr trades, strategy', executor') =>
      let '(score, self') := score_trades self trades in
      (inr score, self', strategy', executor')
  end.

End Optimizer.
Import Optimizer.

(** ** Successive calls on one strategy instance, and the bar contract *)

Module Trace.

(** The values returned by successive [generate_signal] calls on one
    instance, one frame per call. *)
Fixpoint run (risk : RiskConfig) (self : PAFERStrategy)
  (frames : list (list Bar)) : list (option Signal) :=
  match frames with
  | [] => []
  | df :: frames' =>
      let '(r, self') := generate_signal risk self df in
      r :: run risk self' frames'
  end.

(** The call returned a buy or a sell. *)
Definition emits (r : option Signal) : bool :=
  match r with
  | Some s => negb (Action_eqb (action s) hold)
  | None => false
  end.

(** The timestamp of the last bar of a frame. *)
Definition bar_time (df : list Bar) : option Z :=
  option_map timestamp (iloc_last df).

(** A bar of a market with non-negative prices: the low and the high
    bracket the open and the close. *)
Definition well_formed_bar (b : Bar) : Prop :=
  0 <= low b /\ low b <= open b /\ open b <= high b
  /\ low b <= close b /\ close b <= high b.

(** The instance has fired at or after [T]. *)
Definition fired_since (T : Z) (self : PAFERStrategy) : Prop :=
  exists t, last_signal_time self = Some t /\ (T <= t)%Z.

(** A decision procedure for [Forall well_formed_bar]. *)
Definition well_formed_barb (b : Bar) : bool :=
  Qle_bool 0 (low b) && Qle_bool (low b) (open b) && Qle_bool (open b) (high b)
  && Qle_bool (low b) (close b) && Qle_bool (close b) (high b).

End Trace.
Import Trace.

(** ** Sample inputs *)

Module Examples.

(** Bar number [i] of a 15-minute series, opening at its close. *)
Definition bar_at (i : nat) (p h l : Q) : Bar :=
  {| timestamp := 900 * Z.of_nat i; open := p; high := h; low := l;
     close := p; volume := 100 |}.

(** [n] quiet bars at 3000. *)
Definition flat (n : nat) : list Bar :=
  map (fun i => bar_at i 3000 3002 2998) (seq 0 n).

(** 50 bars: a quiet market, a jump, then a slide that stays above the
    long MA. *)
Definition sell_bars : list Bar :=
  flat 44 ++ [bar_at 44 3100 3102 3000; bar_at 45 3100 3102 3098;
              bar_at 46 3095 3100 3093; bar_at 47 3085 3096 3083;
              bar_at 48 3070 3086 3068; bar_at 49 3040 3071 2900].

(** 200 bars: a quiet market, then four accelerating bars. *)
Definition buy_bars : list Bar :=
  flat 196 ++ [bar_at 196 3010 3012 3000; bar_at 197 3030 3032 3010;
               bar_at 198 3070 3072 3030; bar_at 199 3150 3152 3070].

(** 50 bars whose last close, 2999.5, is exactly the mean of the last 45
    closes (42 at 3000, then 2980, 2998 and 2999.5, which add up to
    134977.5), after a dip and a recovery.  Every close is a multiple of
    0.5, so the sums and the mean are the same numbers in binary64. *)
Definition level_bars : list Bar :=
  flat 47 ++ [bar_at 47 2980 2982 2978; bar_at 48 2998 3000 2996;
              bar_at 49 (5999 # 2) 3001 2998].

(** The frame of [sell_bars] seen again five minutes later, with one more
    bar. *)
Definition sell_bars_later : list Bar :=
  sell_bars ++ [{| timestamp := 900 * 49 + 300; open := 3040; high := 3045;
                   low := 3035; close := 3042; volume := 100 |}].

(** A sell whose stop sits far below the market: the fill books the whole
    position as a loss. *)
Definition wipeout_sell : Signal :=
  {| action := sell; reason := Some "stop far below the market"%string;
     confidence := Some (65 # 100); stop_loss := Some (Some 0);
     take_profit := Some (Some 0); leverage := Some 20%Z |}.

(** The same dict without its ['reason'] key. *)
Definition unexplained_sell : Signal :=
  {| action := sell; reason := None;
     confidence := Some (65 # 100); stop_loss := Some (Some 0);
     take_profit := Some (Some 0); leverage := Some 20%Z |}.

(** A sell filled above its stop, which sits at 90. *)
Definition stopped_sell : Signal :=
  {| action := sell; reason := Some "stop below the fill"%string;
     confidence := Some (65 # 100); stop_loss := Some (Some 90);
     take_profit := Some (Some 80); leverage := Some 20%Z |}.

(** A buy filled below its stop. *)
Definition stopped_buy : Signal :=
  {| action := buy; reason := Some "stop above the fill"%string;
     confidence := Some (7 # 10); stop_loss := Some (Some 110);
     take_profit := Some (Some 120); leverage := Some 20%Z |}.

(** The simulator after one [wipeout_sell] at 100 with 0.1% slippage: the
    balance is 49.97 and the buffer holds one trade. *)
Definition after_first_loss : TradeExecutor :=
  snd (execute_virtual_trade default_exchange new_executor wipeout_sell
                             100 (1 # 1000) 1704067200).

(** A freshly built optimizer and its strategy. *)
Definition fresh_optimizer : AutoOptimizer := {| best_score := None |}.

Definition fresh_strategy : TunedStrategy :=
  {| instance := init default_strategy; klines_float := None |}.

(** The keyword arguments of a trial: both optimizers pass these eleven
    parameters, [max_klines_for_resonance] drawn from (2.0, 6.0). *)
Definition trial_params : list (string * ParamValue) :=
  [("macd_fast"%string, PyFloat (7 # 2));
   ("macd_slow"%string, PyFloat (81 # 4));
   ("macd_signal"%string, PyFloat 7);
   ("kdj_period"%string, PyFloat (19 # 2));
   ("kdj_smooth_k"%string, PyFloat (7 # 2));
   ("kdj_smooth_d"%string, PyFloat (7 # 2));
   ("ma_short"%string, PyFloat (11 # 2));
   ("ma_mid"%string, PyFloat (23 # 2));
   ("ma_long"%string, PyFloat 45);
   ("momentum_threshold_pct"%string, PyFloat 15);
   ("max_klines_for_resonance"%string, PyFloat 4)].

(** Three bars of a rally and of a slump. *)
Definition rally_bars : list Bar :=
  [bar_at 0 3000 3002 2998; bar_at 1 3010 3012 3000; bar_at 2 3030 3032 3010].

Definition slump_bars : list Bar :=
  [bar_at 0 3000 3002 2998; bar_at 1 2990 3000 2988; bar_at 2 2970 2990 2968].

End Examples.

(** ** utils/helpers.py *)

Module Helpers.

Import PrimFloat.

(** What [get_leverage_for_risk] can raise: [ZeroDivisionError] from a
    float division, [ValueError] and [OverflowError] from [int()]. *)
Inductive FloatExn := FloatDivisionByZero | IntOfNaN | IntOfInfinity.

(** A Python number: an [int], or a [float] (a binary64 value). *)
Inductive Number := IntValue (z : Z) | FloatValue (x : float).

(** [x / y] on Python floats: raises when [y == 0.0]. *)
Definition py_div (x y : float) : FloatExn + float :=
  if eqb y 0 then inl FloatDivisionByZero else inr (div x y).

(** [max(20, x)]: [x] when [x > 20], else the int 20. *)
Definition py_max_20 (x : float) : Number :=
  if ltb 20 x then FloatValue x else IntValue 20.

(** [min(50, y)]: [y] when [y < 50], else the int 50. *)
Definition py_min_50 (y : Number) : Number :=
  match y with
  | IntValue z => if (z <? 50)%Z then y else IntValue 50
  | FloatValue x => if ltb x 50 then y else IntValue 50
  end.

(** [int(x)] on a float: truncation toward zero; NaN and the infinities
    raise. *)
Definition int_of_float (x : float) : FloatExn + Z :=
  match FloatOps.Prim2SF x with
  | SpecFloat.S754_zero _ => inr 0%Z
  | SpecFloat.S754_infinity _ => inl IntOfInfinity
  | SpecFloat.S754_nan => inl IntOfNaN
  | SpecFloat.S754_finite s m e =>
      let v := if (0 <=? e)%Z then (Z.pos m * 2 ^ e)%Z
               else (Z.pos m / 2 ^ (- e))%Z in
      inr (if s then (- v)%Z else v)
  end.

Definition py_int (y : Number) : FloatExn + Z :=
  match y with
  | IntValue z => inr z
  | FloatValue x => int_of_float x
  end.

(** [get_leverage_for_risk(balance_usd, risk_pct, price, sl_distance_usd)]
    on Python floats, in binary64 arithmetic. *)
Definition get_leverage_for_risk
  (balance_usd risk_pct price sl_distance_usd : float) : FloatExn + Z :=
  let max_loss_usd := mul balance_usd (div risk_pct 100) in
  if leb sl_distance_usd 0 then inr 20%Z
  else
    match py_div sl_distance_usd price with
    | inl e => inl e
    | inr ratio =>
        match py_div max_loss_usd ratio with
        | inl e => inl e
        | inr position_size_usd =>
            match py_div position_size_usd balance_usd with
            | inl e => inl e
            | inr q => py_int (py_min_50 (py_max_20 q))
            end
        end
    end.

End Helpers.
Import Helpers.

(** ** core/exchange/huobi_client.py and the live side of the executor *)

Module Live.

(** [HuobiClient.check_risk_before_trade(side, size_usd, price, sl_price)].
    [sl_price] is the signal's stop, a float that may be NaN; [side] is not
    looked at.  The loss percentage is computed on exact rationals; in
    binary64 it can differ in its last digit, and with it the outcome of
    the test at the threshold. *)
Definition check_risk_before_trade (risk : RiskConfig) (side : Action)
  (size_usd price : Q) (sl_price : float) : Exn + bool :=
  if Qeq_bool price 0 then inl ZeroDivisionError
  else
    let max_loss_usd :=
      fop1 (fun sl => size_usd * (Qabs (price - sl) / price)) sl_price in
    if Qeq_bool size_usd 0 then inl ZeroDivisionError
    else
      let max_loss_pct := fop1 (fun l => l / size_usd * 100) max_loss_usd in
      if fcmp Qgtb max_loss_pct (Some (max_loss_percent risk)) then inr false
      else if Qgtb size_usd (max_position_size_usd risk) then inr false
      else inr true.

(** What the exchange answers: the free USDT balance ([None] when the
    request fails) and the order created for a side and an amount, or the
    text of the exception the request raised. *)
Record Order := {
  order_id : string;
  order_price : float
}.

Record Exchange := {
  fetch_balance : option Q;
  create_order : Action -> Q -> string + Order
}.

(** The live side of a [TradeExecutor]. *)
Record LiveExecutor := {
  is_live : bool;
  client : option Exchange
}.

Definition toggle_live (self : LiveExecutor) (enable : bool) : LiveExecutor :=
  {| is_live := enable; client := client self |}.

(** [get_account_balance]: 0 when live trading is off, when there is no
    client, or when the request fails. *)
Definition get_account_balance (self : LiveExecutor) : Q :=
  if negb (is_live self) then 0
  else match client self with
       | Some ex => match fetch_balance ex with Some b => b | None => 0 end
       | None => 0
       end.

Inductive LiveResult :=
| Disabled
| RiskRejected
| Success (id : string) (exec_price : float) (size_usd : Q)
| LiveError (message : string).

(** A trading request sent to the exchange. *)
Inductive Request :=
| SetLeverage (leverage : Z)
| CreateOrder (side : Action) (amount : Q).

(** [execute_live_trade(signal, price, timestamp)]: the result and the
    trading requests sent to the exchange, in order.  [set_leverage] logs
    its own failures and never raises; the divisions are divisions of
    Python floats. *)
Definition execute_live_trade (risk : RiskConfig) (self : LiveExecutor)
  (signal : Signal) (price : Q) : LiveResult * list Request :=
  match client self with
  | None => (Disabled, [])
  | Some ex =>
      if negb (is_live self) then (Disabled, [])
      else
        let size_usd := Qmin 50 (get_account_balance self * (8 # 10)) in
        match stop_loss signal with
        | None => (LiveError (str (KeyError "stop_loss")), [])
        | Some sl =>
            match check_risk_before_trade risk (action signal) size_usd price sl with
            | inl e => (LiveError (str e), [])
            | inr false => (RiskRejected, [])
            | inr true =>
                match leverage signal with
                | None => (LiveError (str (KeyError "leverage")), [])
                | Some lev =>
                    let amount := size_usd / price in
                    match create_order ex (action signal) amount with
                    | inl message =>
                        (LiveError message,
                         [SetLeverage lev; CreateOrder (action signal) amount])
                    | inr order =>
                        (Success (order_id order) (order_price order) size_usd,
                         [SetLeverage lev; CreateOrder (action signal) amount])
                    end
                end
            end
        end
  end.

End Live.
Import Live.

(** ** The maximum drawdown of the earlier optimizer
    (the [AutoOptimizer] kept in web/components/kline_chart.py) *)

Module Drawdown.

Inductive DrawdownExn := IndexError | DivisionByZero.

(** The [for] loop: [peak] and [max_dd] are the loop variables. *)
Fixpoint drawdown_loop (peak max_dd : Q) (values : list Q)
  : DrawdownExn + Q :=
  match values with
  | [] => inr max_dd
  | value :: rest =>
      let peak := if Qgtb value peak then value else peak in
      if Qeq_bool peak 0 then inl DivisionByZero
      else
        let dd := (peak - value) / peak in
        let max_dd := if Qgtb dd max_dd then dd else max_dd in
        drawdown_loop peak max_dd rest
  end.

Definition _calculate_max_drawdown (equity_curve : list Q) : DrawdownExn + Q :=
  match equity_curve with
  | [] => inl IndexError
  | first :: _ => drawdown_loop first 0 equity_curve
  end.

End Drawdown.
Import Drawdown.

(** ** core/database/db_manager.py: the two tables the core writes *)

Module Database.

(** The [trades] table: rows with their AUTOINCREMENT id, oldest first, and
    the largest id handed out so far. *)
Record TradesTable := {
  trade_rows : list (Z * Trade);
  trade_seq : Z
}.

Definition empty_trades : TradesTable := {| trade_rows := []; trade_seq := 0 |}.

(** [save_trade]: INSERT OR REPLACE on the UNIQUE column [trade_id]: the row
    that holds the same [trade_id] is deleted and the record is inserted
    under a new id. *)
Definition save_trade (tbl : TradesTable) (record : Trade) : TradesTable :=
  let id := (trade_seq tbl + 1)%Z in
  {| trade_rows :=
       filter (fun r => negb (String.eqb (trade_id (snd r)) (trade_id record)))
              (trade_rows tbl)
       ++ [(id, record)];
     trade_seq := id |}.

(** The row of a [trade_id], for stating what the table holds
    (SELECT ... WHERE trade_id = ?). *)
Definition find_trade (tbl : TradesTable) (id : string) : option Trade :=
  option_map snd
    (find (fun r => String.eqb (trade_id (snd r)) id) (trade_rows tbl)).

(** The [strategy_configs] table. *)
Record ConfigRow := {
  config_id : Z;
  config_hash : Z;
  config_json : string;
  config_active : bool
}.

Record ConfigsTable := {
  config_rows : list ConfigRow;
  config_seq : Z
}.

Inductive DbExn := IntegrityError.

Section SaveConfig.

(** Python's [hash] on strings, fixed for one process. *)
Variable hash : string -> Z.

(** [save_strategy_config], from the JSON text of the dict: the INSERT
    fails on a [config_hash] already in the table (the call re-raises and
    nothing is committed); otherwise the row is inserted as active under
    the next id, and the UPDATE makes inactive every row with another id. *)
Definition save_strategy_config (tbl : ConfigsTable) (json : string)
  : (DbExn + Z) * ConfigsTable :=
  let h := hash json in
  if existsb (fun r => (config_hash r =? h)%Z) (config_rows tbl)
  then (inl IntegrityError, tbl)
  else
    let id := (config_seq tbl + 1)%Z in
    let inserted :=
      config_rows tbl
      ++ [{| config_id := id; config_hash := h; config_json := json;
             config_active := true |}] in
    (inr id,
     {| config_rows :=
          map (fun r => if (config_id r =? id)%Z then r
                        else {| config_id := config_id r;
                                config_hash := config_hash r;
                                config_json := config_json r;
                                config_active := false |}) inserted;
        config_seq := id |}).

End SaveConfig.

End Database.
Import Database.

(** ** core/exchange/realtime_engine.py: the bar buffer *)

Module Realtime.

(** [kline_buffer]: the rows received per timeframe. *)
Definition KlineBuffer := string -> option (list Bar).

Definition empty_buffer : KlineBuffer := fun _ => None.

(** The part of [_on_message] that stores a bar of [timeframe]: append, then
    keep the last 100 rows. *)
Definition store_kline (buf : KlineBuffer) (timeframe : string) (row : Bar)
  : KlineBuffer :=
  let rows := match buf timeframe with Some l => l | None => [] end ++ [row] in
  let rows := if (100 <? length rows)%nat then tail 100 rows else rows in
  fun k => if String.eqb k timeframe then Some rows else buf k.

(** [l[-limit:]] *)
Definition slice_last {A} (limit : Z) (l : list A) : list A :=
  if (0 <? limit)%Z then tail (Z.to_nat limit) l
  else skipn (Z.to_nat (- limit)) l.

(** The rows [get_latest_klines(timeframe, limit)] puts in its DataFrame,
    before it sorts them by timestamp. *)
Definition latest_rows (buf : KlineBuffer) (timeframe : string) (limit : Z)
  : list Bar :=
  match buf timeframe with
  | None => []
  | Some rows => slice_last limit rows
  end.

End Realtime.
Import Realtime.

(** ** Notions used in the statements *)

Module Notions.

(** Every cell of the column is [v]. *)
Definition constant_column {A} (v : A) (l : list A) : Prop :=
  Forall (fun x => x = v) l.

(** The order of best scores, minus infinity ([None]) below every score. *)
Definition best_le (a b : option R) : Prop :=
  match a, b with
  | None, _ => True
  | Some _, None => False
  | Some x, Some y => (x <= y)%R
  end.

(** The [trade_id]s of a table. *)
Definition trade_ids (tbl : TradesTable) : list string :=
  map (fun r => trade_id (snd r)) (trade_rows tbl).

(** The ids of a configurations table were all handed out by its
    counter. *)
Definition ids_within (tbl : ConfigsTable) : Prop :=
  Forall (fun r => (config_id r <= config_seq tbl)%Z) (config_rows tbl).

(** The buffer after the bars [rows] of one timeframe arrived, in this
    order. *)
Definition feed (timeframe : string) (rows : list Bar) (buf : KlineBuffer)
  : KlineBuffer :=
  fold_left (fun b row => store_kline b timeframe row) rows buf.

End Notions.
Import Notions.

(** ** Further sample inputs *)

Module Samples.

(** A buy dict that lacks its ['stop_loss'] key. *)
Definition bare_buy : Signal :=
  {| action := buy; reason := Some "no levels"%string; confidence := None;
     stop_loss := None; take_profit := None; leverage := None |}.


(** An equity curve that falls from 120 to 90 and recovers. *)
Definition dipping_curve : list Q := [100; 120; 90; 110].

(** An exchange that holds 1000 USDT and fills every order, and a live
    executor connected to it. *)
Definition filling_exchange : Exchange :=
  {| fetch_balance := Some 1000;
     create_order := fun _ _ =>
       inr {| order_id := "1"%string; order_price := Some 3000 |} |}.

Definition live_executor : LiveExecutor :=
  {| is_live := true; client := Some filling_exchange |}.

(** A sell at 3000 with its stop ten dollars above. *)
Definition tight_sell : Signal :=
  {| action := sell; reason := Some "tight stop"%string;
     confidence := Some (65 # 100); stop_loss := Some (Some 3010);
     take_profit := Some (Some 2900); leverage := Some 20%Z |}.

(** A configurations table without rows. *)
Definition empty_configs : ConfigsTable :=
  {| config_rows := []; config_seq := 0 |}.

(** A stand-in for Python's string hash: the length of the text. *)
Definition length_hash (s : string) : Z := Z.of_nat (String.length s).

End Samples.
Import Samples.

(** * Properties *)

(** ** Boolean comparisons *)

Lemma Qltb_lt x y : Qltb x y = true <-> x < y.
Proof.
  unfold Qltb. rewrite negb_true_iff, <- not_true_iff_false, Qle_bool_iff.
  split; intro H; [apply Qnot_le_lt | apply Qlt_not_le]; exact H.
Qed.

Lemma Qgtb_gt x y : Qgtb x y = true <-> y < x.
Proof. unfold Qgtb. apply Qltb_lt. Qed.


(** ** Facts about columns *)

Section ColumnFacts.

Context {A B C D E : Type}.

Lemma length_map2 (f : A -> B -> C) (l : list A) (m : list B) :
  length (map2 f l m) = Nat.min (length l) (length m).
Proof.
  revert m. induction l as [|a l IH]; intros [|b m]; simpl; auto.
Qed.

Lemma length_map4 (f : A -> B -> C -> D -> E) a b c d :
  length b = length a -> length c = length a -> length d = length a ->
  length (map4 f a b c d) = length a.
Proof.
  revert b c d. induction a as [|x a IH]; intros [|y b] [|z c] [|w d];
    simpl; intros Hb Hc Hd; try discriminate; auto.
Qed.

Lemma length_removelast_cons {T} (x : T) (s : list T) :
  length (removelast (x :: s)) = length s.
Proof.
  revert x. induction s as [|y s IH]; intros x; [reflexivity|].
  change (removelast (x :: y :: s)) with (x :: removelast (y :: s)).
  cbn [length]. now rewrite IH.
Qed.

Lemma length_shift1 (s : list (option A)) : length (shift1 s) = length s.
Proof.
  destruct s as [|x s]; [reflexivity|].
  unfold shift1. cbn [length]. f_equal. apply length_removelast_cons.
Qed.

Lemma In_map2 (f : A -> B -> C) l m c :
  In c (map2 f l m) -> exists a b, In a l /\ In b m /\ c = f a b.
Proof.
  revert m. induction l as [|a l IH]; intros [|b m]; simpl; try tauto.
  intros [<- | H].
  - exists a, b. auto.
  - destruct (IH _ H) as (a' & b' & ? & ? & ?). exists a', b'. auto.
Qed.

Lemma In_map4 (f : A -> B -> C -> D -> E) a b c d e :
  In e (map4 f a b c d) ->
  exists x y z w, In x a /\ In y b /\ In z c /\ In w d /\ e = f x y z w.
Proof.
  revert b c d. induction a as [|x a IH]; intros [|y b] [|z c] [|w d];
    simpl; try tauto.
  intros [<- | H].
  - exists x, y, z, w. auto 6.
  - destruct (IH _ _ _ H) as (x' & y' & z' & w' & ? & ? & ? & ? & ?).
    exists x', y', z', w'. auto 6.
Qed.

Lemma iloc_last_map4 (f : A -> B -> C -> D -> E) (g : E -> A) a b c d :
  (forall x y z w, g (f x y z w) = x) ->
  length b = length a -> length c = length a -> length d = length a ->
  option_map g (iloc_last (map4 f a b c d)) = iloc_last a.
Proof.
  intros Hg. revert b c d.
  induction a as [|x a IH]; intros [|y b] [|z c] [|w d];
    simpl; intros Hb Hc Hd; try discriminate; auto.
  injection Hb as Hb. injection Hc as Hc. injection Hd as Hd.
  specialize (IH b c d Hb Hc Hd).
  destruct a as [|x' a]; destruct b as [|y' b]; destruct c as [|z' c];
    destruct d as [|w' d]; try discriminate; simpl; [now rewrite Hg|].
  exact IH.
Qed.

Lemma iloc_last_In (l : list A) x : iloc_last l = Some x -> In x l.
Proof.
  induction l as [|a l IH]; simpl; [discriminate|].
  destruct l as [|b l]; [intros [= <-]; auto | auto].
Qed.

Lemma iloc_last_split (l : list A) x :
  iloc_last l = Some x -> exists l', l = l' ++ [x].
Proof.
  induction l as [|a l IH]; simpl; [discriminate|].
  destruct l as [|b l].
  - intros [= <-]. exists []. reflexivity.
  - intros H. destruct (IH H) as [l' Hl']. exists (a :: l'). now rewrite Hl'.
Qed.

Lemma iloc_last_tail (n : nat) (l : list A) x :
  (1 <= n)%nat -> iloc_last l = Some x -> In x (tail n l).
Proof.
  intros Hn H. destruct (iloc_last_split _ _ H) as [l' ->].
  unfold tail. rewrite length_app, skipn_app. cbn [length].
  apply in_or_app. right.
  replace (length l' + 1 - n - length l')%nat with 0%nat by lia.
  simpl. auto.
Qed.

Lemma tail_incl (n : nat) (l : list A) x : In x (tail n l) -> In x l.
Proof.
  unfold tail. intros H. rewrite <- (firstn_skipn (length l - n) l).
  apply in_or_app. auto.
Qed.

Lemma filter_full (p : A -> bool) (l : list A) :
  (length l <= length (filter p l))%nat -> forall x, In x l -> p x = true.
Proof.
  induction l as [|a l IH]; simpl; [tauto|].
  pose proof (filter_length_le p l) as Hle.
  destruct (p a) eqn:Hp; simpl; intros Hlen x [<- | Hx]; auto; try lia.
  - apply IH; [lia | exact Hx].
Qed.

End ColumnFacts.

(** ** The indicator engine *)

Section IndicatorFacts.

Lemma length_ewm_loop alpha w o vals :
  length (ewm_loop alpha w o vals) = length vals.
Proof.
  revert w o. induction vals as [|c vals IH]; intros w o; [reflexivity|].
  simpl. destruct w as [w|]; [destruct c as [c|]|]; simpl; now rewrite IH.
Qed.

Lemma length_ewm_mean span vals : length (ewm_mean span vals) = length vals.
Proof.
  destruct vals as [|v vals]; [reflexivity|].
  simpl. now rewrite length_ewm_loop.
Qed.

Lemma length_rolling n agg col : length (rolling n agg col) = length col.
Proof. unfold rolling. now rewrite length_map, length_seq. Qed.

Lemma length_sdiff s : length (sdiff s) = length s.
Proof.
  unfold sdiff. rewrite length_map2, length_shift1. apply Nat.min_id.
Qed.

Create Rewrite HintDb collen.
Hint Rewrite @length_map2 @length_shift1 length_ewm_mean length_rolling
  length_sdiff @length_map @length_combine Nat.min_id : collen.

Lemma length_macd_drift_mask l s :
  length s = length l -> length (macd_drift_mask l s) = length l.
Proof.
  intros H. unfold macd_drift_mask.
  rewrite length_map4; autorewrite with collen; rewrite ?H;
    autorewrite with collen; auto.
Qed.

Lemma length_calculate_macd df fast slow signal :
  length (calculate_macd df fast slow signal) = length df.
Proof.
  unfold calculate_macd. autorewrite with collen.
  rewrite length_macd_drift_mask; autorewrite with collen; reflexivity.
Qed.

Lemma length_calculate_kdj df period sk sd :
  length (calculate_kdj df period sk sd) = length df.
Proof. unfold calculate_kdj. autorewrite with collen. reflexivity. Qed.

Lemma length_calculate_ma df a b c :
  length (calculate_ma df a b c) = length df.
Proof. unfold calculate_ma. autorewrite with collen. reflexivity. Qed.

Lemma length_add_paferr_features df cfg :
  length (add_paferr_features df cfg) = length df.
Proof.
  unfold add_paferr_features.
  apply length_map4;
    auto using length_calculate_macd, length_calculate_kdj, length_calculate_ma.
Qed.

(** The last row of the indicator frame carries the last bar. *)
Lemma iloc_last_add_paferr_features df cfg :
  option_map bar (iloc_last (add_paferr_features df cfg)) = iloc_last df.
Proof.
  unfold add_paferr_features.
  apply iloc_last_map4;
    auto using length_calculate_macd, length_calculate_kdj, length_calculate_ma.
Qed.

Lemma In_add_paferr_features r df cfg :
  In r (add_paferr_features df cfg) ->
  In (bar r) df
  /\ In (macd r) (calculate_macd df (macd_fast cfg) (macd_slow cfg) (macd_signal cfg))
  /\ In (ma r) (calculate_ma df (ma_short cfg) (ma_mid cfg) (ma_long cfg)).
Proof.
  unfold add_paferr_features. intros H.
  apply In_map4 in H. destruct H as (b & m & k & a & Hb & Hm & Hk & Ha & ->).
  simpl. auto.
Qed.

(** *** The drift mask *)

(** The two conjunctions of the drift mask are contradictory: [diff > 0]
    is [macd_line > signal_line]. *)
Lemma drift_cell_false l s dprev :
  drift_cell (fop2 Qminus l s) dprev l s = false.
Proof.
  unfold drift_cell. destruct l as [l|], s as [s|]; simpl;
    rewrite ?andb_false_r; auto.
  apply orb_false_iff; split; apply not_true_iff_false; intros H;
    rewrite !andb_true_iff, ?Qgtb_gt, ?Qltb_lt in H;
    destruct H as [[H1 _] H2]; lra.
Qed.

Lemma map4_drift_false l s sh :
  Forall (fun b => b = false)
         (map4 drift_cell (map2 (fop2 Qminus) l s) sh l s).
Proof.
  revert s sh. induction l as [|x l IH]; intros [|y s] [|z sh]; simpl;
    constructor; auto using drift_cell_false.
Qed.

Lemma macd_drift_mask_false l s :
  Forall (fun b => b = false) (macd_drift_mask l s).
Proof. apply map4_drift_false. Qed.

Lemma calculate_macd_drift_zero df fast slow signal :
  Forall (fun r => c_macd_drift r = 0%Z) (calculate_macd df fast slow signal).
Proof.
  apply Forall_forall. intros r H. unfold calculate_macd in H.
  apply In_map2 in H. destruct H as ([l s] & [h [d m]] & _ & H & ->).
  apply in_combine_r, in_combine_l in H. simpl.
  eapply Forall_forall in H; [|apply macd_drift_mask_false].
  now rewrite H.
Qed.

Lemma add_paferr_features_drift_zero df cfg :
  Forall (fun r => macd_drift r = 0%Z) (add_paferr_features df cfg).
Proof.
  apply Forall_forall. intros r H.
  apply In_add_paferr_features in H. destruct H as (_ & H & _).
  pose proof (calculate_macd_drift_zero df (macd_fast cfg) (macd_slow cfg)
                (macd_signal cfg)) as F.
  rewrite Forall_forall in F. exact (F _ H).
Qed.

Lemma sum_zero (l : list Z) :
  Forall (fun z => z = 0%Z) l -> fold_right Z.add 0%Z l = 0%Z.
Proof. induction 1 as [|z l Hz _ IH]; simpl; [reflexivity | lia]. Qed.

Lemma drift_accumulation_zero df cfg window :
  _check_drift_accumulation (add_paferr_features df cfg) window = 0%Z.
Proof.
  unfold _check_drift_accumulation. apply sum_zero.
  apply Forall_forall. intros z Hz. apply in_map_iff in Hz.
  destruct Hz as (r & <- & Hr). apply tail_incl in Hr.
  pose proof (add_paferr_features_drift_zero df cfg) as F.
  rewrite Forall_forall in F. exact (F _ Hr).
Qed.

End IndicatorFacts.

(** ** The resonance signal engine *)

Import Examples.

(** Closes a goal [x < y] or [x <= y] between concrete rationals. *)
Ltac qcompare :=
  first [ apply Qltb_lt; vm_compute; reflexivity
        | apply Qle_bool_iff; vm_compute; reflexivity
        | apply Qeq_bool_iff; vm_compute; reflexivity ].

Section SignalFacts.

Variable risk : RiskConfig.

(** What an evaluation that emits a buy or a sell went through. *)
Lemma generate_signal_emits self df s self' :
  generate_signal risk self df = (Some s, self') ->
  action s <> hold ->
  exists latest,
    let rows := add_paferr_features df (config self) in
    let now := timestamp (bar latest) in
    let res := _check_resonance self rows in
    let drift := _check_drift_accumulation rows 5 in
    iloc_last rows = Some latest
    /\ cooling_down self now = false
    /\ _check_momentum self rows = true
    /\ _check_timeliness self rows = true
    /\ self' = fired self now
    /\ ((is_bullish res = true
         /\ s = buy_signal risk latest (total_resonance res) drift)
        \/ (is_bearish res = true /\ s = sell_signal risk latest drift)).
Proof.
  unfold generate_signal. intros H Hact.
  destruct (length df <? 50)%nat; [discriminate|].
  destruct (iloc_last _) as [latest|] eqn:Hl; [|discriminate].
  destruct (cooling_down _ _) eqn:Hc; [discriminate|].
  exists latest. cbv zeta.
  destruct (is_bullish _ && _ && _) eqn:Hb.
  - apply andb_true_iff in Hb. destruct Hb as [Hb Ht].
    apply andb_true_iff in Hb. destruct Hb as [Hb Hm].
    injection H as <- <-. auto 10.
  - destruct (is_bearish _ && _ && _) eqn:Hs.
    + apply andb_true_iff in Hs. destruct Hs as [Hs Ht].
      apply andb_true_iff in Hs. destruct Hs as [Hs Hm].
      injection H as <- <-. auto 10.
    + injection H as <- <-. now elim Hact.
Qed.

(** The instance after a call: untouched, or fired at the bar time of the
    frame. *)
Lemma generate_signal_state self df :
  let out := generate_signal risk self df in
  snd out = self
  \/ exists latest,
       iloc_last (add_paferr_features df (config self)) = Some latest
       /\ cooling_down self (timestamp (bar latest)) = false
       /\ snd out = fired self (timestamp (bar latest)).
Proof.
  unfold generate_signal.
  destruct (length df <? 50)%nat; [now left|].
  destruct (iloc_last _) as [latest|] eqn:Hl; [|now left].
  destruct (cooling_down _ _) eqn:Hc; [now left|].
  destruct (is_bullish _ && _ && _); [right; exists latest; auto|].
  destruct (is_bearish _ && _ && _); [right; exists latest; auto|now left].
Qed.

End SignalFacts.

(** C5.  In every evaluation the resonance count is one of 0, 1, 2, 3, 4,
    and the bullish classification (count >= 3) and the bearish one
    (count = 0 and the 4h trend the constant False) never hold together.
    This holds for every frame, in particular for those of at least 50 bars
    that [generate_signal] evaluates. *)
Theorem resonance_count_range_and_exclusion (self : PAFERStrategy)
  (df : list Bar) :
  let r := _check_resonance self (add_paferr_features df (config self)) in
  (0 <= total_resonance r <= 4)%Z
  /\ ~ (is_bullish r = true /\ is_bearish r = true).
Proof.
  cbv zeta.
  set (r := _check_resonance _ _). clearbody r.
  unfold is_bullish, is_bearish, total_resonance.
  split.
  - destruct (truth (r15m r)), (truth (r30m r)), (truth (r1h r)),
      (truth (r4h r)); simpl; lia.
  - intros [Hb Hs]. apply andb_true_iff in Hs. destruct Hs as [Hs _].
    apply Z.leb_le in Hb. apply Z.eqb_eq in Hs. lia.
Qed.

(** On [buy_bars] the default engine emits a buy. *)
Lemma buy_bars_emit :
  exists s self',
    generate_signal default_risk (init default_strategy) buy_bars
    = (Some s, self')
    /\ action s = buy.
Proof. eexists; eexists. split; [vm_compute; reflexivity | reflexivity]. Qed.

(** C10.  The drift accumulation over the trailing 5 bars is 0 on every
    frame, so every intent [generate_signal] emits has leverage 20, and
    confidence 0.7 when it is a buy and 0.65 when it is a sell. *)
Theorem drift_zero_fixes_leverage_and_confidence
  (risk : RiskConfig) (self : PAFERStrategy) (df : list Bar) :
  _check_drift_accumulation (add_paferr_features df (config self)) 5 = 0%Z
  /\ forall s self',
       generate_signal risk self df = (Some s, self') ->
       action s <> hold ->
       leverage s = Some 20%Z
       /\ exists c, confidence s = Some c
                    /\ (action s = buy -> c == 7 # 10)
                    /\ (action s = sell -> c == 65 # 100).
Proof.
  split; [apply drift_accumulation_zero|].
  intros s self' H Hact.
  destruct (generate_signal_emits _ _ _ _ _ H Hact)
    as (latest & _ & _ & _ & _ & _ & Hs).
  cbv zeta in Hs. rewrite drift_accumulation_zero in Hs.
  destruct Hs as [[_ ->] | [_ ->]]; simpl; (split; [reflexivity|]);
    eexists; (split; [reflexivity|]); split; intros E;
    try discriminate; reflexivity.
Qed.

Lemma drift_zero_fixes_leverage_and_confidence_witness :
  exists s self',
    generate_signal default_risk (init default_strategy) buy_bars
    = (Some s, self')
    /\ action s = buy
    /\ leverage s = Some 20%Z
    /\ exists c, confidence s = Some c /\ c == 7 # 10.
Proof.
  destruct buy_bars_emit as (s & self' & E & Ha).
  exists s, self'.
  destruct (drift_zero_fixes_leverage_and_confidence default_risk
              (init default_strategy) buy_bars) as [_ Hs].
  destruct (Hs _ _ E) as (Hl & c & Hc & Hb & _); [rewrite Ha; discriminate|].
  repeat split; auto. exists c. auto.
Defined.

(** C4.  The drift flag is 0 on every row of every frame: each side of the
    mask asks for [macd_line - signal_line] to have one sign and for the
    two lines to be ordered the other way.  On [rally_bars] the gap between
    the line and its signal is positive and widens at the last bar, on
    [slump_bars] it is negative and widens; the flag is 0 on both. *)
Theorem macd_drift_never_set :
  (forall df fast slow signal,
      Forall (fun r => c_macd_drift r = 0%Z) (calculate_macd df fast slow signal))
  /\ (exists g1 g2,
        map c_macd_hist (tail 2 (calculate_macd rally_bars 3 18 6))
        = [Some g1; Some g2]
        /\ 0 < g1 /\ g1 < g2
        /\ map c_macd_drift (calculate_macd rally_bars 3 18 6) = [0; 0; 0]%Z)
  /\ (exists g1 g2,
        map c_macd_hist (tail 2 (calculate_macd slump_bars 3 18 6))
        = [Some g1; Some g2]
        /\ g1 < 0 /\ g2 < g1
        /\ map c_macd_drift (calculate_macd slump_bars 3 18 6) = [0; 0; 0]%Z).
Proof.
  split; [exact calculate_macd_drift_zero|].
  split; eexists; eexists; (split; [vm_compute; reflexivity|]);
    repeat split; try qcompare; vm_compute; reflexivity.
Qed.

(** C6, as the code has it.  On a frame of at least 2 rows the trend is true
    exactly when the last long MA is defined, the last close is strictly
    above it, and the last MACD histogram is strictly positive.  An
    aggregate of fewer than 50 bars contributes the constant False. *)
Theorem trend_status_strict (cfg : StrategyConfig) (w : Z)
  (df frame : list Row) :
  ((2 <= length frame)%nat ->
   exists r, iloc_last frame = Some r
             /\ (truth (get_trend_status frame) = true <->
                 exists m h, ma45 r = Some m /\ macd_hist r = Some h
                             /\ m < close (bar r) /\ 0 < h))
  /\ ((length (resample w (map bar df)) < 50)%nat ->
      get_trend_status (aggregate_frame cfg w df) = PyBool false).
Proof.
  split.
  - intros Hlen. unfold get_trend_status.
    destruct (Nat.ltb_spec (length frame) 2) as [Hlt|_]; [lia|].
    destruct (iloc_last frame) as [r|] eqn:Hr.
    + exists r. split; [reflexivity|]. simpl.
      rewrite andb_true_iff. split.
      * intros [H1 H2].
        destruct (ma45 r) as [m|]; [|discriminate].
        destruct (macd_hist r) as [h|]; [|discriminate].
        simpl in H1, H2. apply Qgtb_gt in H1. apply Qgtb_gt in H2.
        exists m, h. auto.
      * intros (m & h & -> & -> & H1 & H2). simpl.
        split; apply Qgtb_gt; assumption.
    + destruct frame as [|x [|y frame]]; simpl in Hlen; try lia.
      exfalso. clear Hlen. revert x y Hr.
      induction frame as [|z frame IH]; intros x y Hr;
        [discriminate | exact (IH y z Hr)].
  - intros Hlen. unfold aggregate_frame.
    destruct (Nat.leb_spec 50 (length (resample w (map bar df))));
      [lia | reflexivity].
Qed.

Lemma trend_status_strict_witness :
  (exists r, iloc_last (add_paferr_features buy_bars default_strategy) = Some r
             /\ (truth (get_trend_status
                          (add_paferr_features buy_bars default_strategy)) = true
                 <-> exists m h, ma45 r = Some m /\ macd_hist r = Some h
                                 /\ m < close (bar r) /\ 0 < h))
  /\ get_trend_status
       (aggregate_frame default_strategy (4 * 60 * 60)
                        (add_paferr_features buy_bars default_strategy))
     = PyBool false.
Proof.
  destruct (trend_status_strict default_strategy (4 * 60 * 60)
              (add_paferr_features buy_bars default_strategy)
              (add_paferr_features buy_bars default_strategy)) as [H1 H2].
  split; [apply H1 | apply H2]; vm_compute; repeat constructor.
Defined.

(** C6, counterexample.  On [level_bars] the last close and the last long
    MA are both 2999.5 and the last histogram is positive (about 1.0), so
    "close >= long MA and histogram > 0" holds, and the trend is false. *)
Lemma trend_false_when_close_equals_ma :
  let frame := add_paferr_features level_bars default_strategy in
  (2 <= length frame)%nat
  /\ exists r m h,
       iloc_last frame = Some r
       /\ ma45 r = Some m /\ macd_hist r = Some h
       /\ close (bar r) = (5999 # 2) /\ m = (5999 # 2) /\ 1 <= h
       /\ truth (get_trend_status frame) = false.
Proof.
  cbv zeta. split; [vm_compute; repeat constructor|].
  eexists; eexists; eexists.
  split; [vm_compute; reflexivity|].
  split; [vm_compute; reflexivity|].
  split; [vm_compute; reflexivity|].
  split; [reflexivity|]. split; [reflexivity|].
  split; [qcompare|]. vm_compute; reflexivity.
Qed.

(** *** The long MA of non-negative closes *)

Lemma Qsum_nonneg l : Forall (fun x => 0 <= x) l -> 0 <= Qsum l.
Proof.
  induction 1 as [|x l Hx _ IH]; simpl; [apply Qle_refl|].
  change 0 with (0 + 0). apply Qplus_le_compat; assumption.
Qed.

Lemma Qmean_nonneg l : Forall (fun x => 0 <= x) l -> 0 <= Qmean l.
Proof.
  intros H. unfold Qmean. rewrite Qred_correct. unfold Qdiv.
  apply Qmult_le_0_compat; [apply Qsum_nonneg, H|].
  apply Qinv_le_0_compat. change 0 with (inject_Z 0).
  rewrite <- Zle_Qle. lia.
Qed.

Lemma window_at_incl {A} n i (l : list A) x : In x (window_at n i l) -> In x l.
Proof.
  unfold window_at. intros H.
  rewrite <- (firstn_skipn (i + 1 - n) l). apply in_or_app. right.
  rewrite <- (firstn_skipn n (skipn (i + 1 - n) l)). apply in_or_app. auto.
Qed.

Lemma rolling_mean_nonneg n col x :
  Forall (fun y => 0 <= y) col -> In (Some x) (rolling n Qmean col) -> 0 <= x.
Proof.
  intros Hcol H. unfold rolling in H. apply in_map_iff in H.
  destruct H as (i & Hi & _).
  destruct ((1 <=? n)%nat && (n <=? i + 1)%nat); [|discriminate].
  injection Hi as <-. apply Qmean_nonneg.
  rewrite Forall_forall in *. intros y Hy. apply Hcol.
  eapply window_at_incl, Hy.
Qed.

Lemma ma45_nonneg r df cfg m :
  Forall (fun b => 0 <= close b) df ->
  In r (add_paferr_features df cfg) -> ma45 r = Some m -> 0 <= m.
Proof.
  intros Hdf Hr Hm. apply In_add_paferr_features in Hr.
  destruct Hr as (_ & _ & Hr). unfold calculate_ma in Hr.
  apply In_map2 in Hr. destruct Hr as ([a b] & [c st] & _ & Hr & E).
  apply in_combine_l in Hr. unfold ma45 in Hm. rewrite E in Hm. simpl in Hm.
  subst c. eapply rolling_mean_nonneg; [|exact Hr].
  rewrite Forall_forall in *. intros y Hy. apply in_map_iff in Hy.
  destruct Hy as (b0 & <- & Hb0). auto.
Qed.

(** A timely frame closes above its long MA at the last bar. *)
Lemma timely_last_above_ma self rows latest :
  (1 <= max_klines_for_resonance (config self))%nat ->
  _check_timeliness self rows = true ->
  iloc_last rows = Some latest ->
  exists m, ma45 latest = Some m /\ m < close (bar latest).
Proof.
  intros Hn Ht Hl. unfold _check_timeliness in Ht. apply Nat.leb_le in Ht.
  set (n := max_klines_for_resonance (config self)) in *.
  assert (Hlen : (length (tail n rows) <= n)%nat)
    by (unfold tail; rewrite length_skipn; lia).
  assert (H : fcmp Qgtb (Some (close (bar latest))) (ma45 latest) = true).
  { apply (filter_full (fun r => fcmp Qgtb (Some (close (bar r))) (ma45 r))
                       (tail n rows)); [lia|].
    apply iloc_last_tail; assumption. }
  simpl in H. destruct (ma45 latest) as [m|]; [|discriminate].
  exists m. split; [reflexivity|]. now apply Qgtb_gt.
Qed.

(** C7, as the code has it.  A buy intent emitted on well-formed bars, with
    a non-negative stop buffer and a timeliness window of at least one bar,
    has its stop strictly below its target; a sell intent puts its target
    below the low of the bar and its stop above the long MA, and no order
    between the two is promised. *)
Theorem buy_stop_below_target (risk : RiskConfig)
  (self self' : PAFERStrategy) (df : list Bar) (s : Signal) :
  0 <= stop_loss_buffer risk ->
  (1 <= max_klines_for_resonance (config self))%nat ->
  Forall well_formed_bar df ->
  generate_signal risk self df = (Some s, self') ->
  action s = buy ->
  exists sl tp, stop_loss s = Some (Some sl)
                /\ take_profit s = Some (Some tp) /\ sl < tp.
Proof.
  intros Hbuf Hn Hdf H Ha.
  destruct (generate_signal_emits _ _ _ _ _ H ltac:(rewrite Ha; discriminate))
    as (latest & Hl & _ & _ & Ht & _ & Hs).
  cbv zeta in Hs.
  destruct Hs as [[_ ->] | [_ ->]]; [|discriminate].
  destruct (timely_last_above_ma _ _ _ Hn Ht Hl) as (m & Hm & Hlt).
  assert (Hin : In latest (add_paferr_features df (config self)))
    by (apply iloc_last_In, Hl).
  assert (Hm0 : 0 <= m).
  { eapply ma45_nonneg; [|exact Hin|exact Hm].
    eapply Forall_impl; [|exact Hdf]. intros b (H1 & _ & _ & H2 & _).
    eapply Qle_trans; eassumption. }
  apply In_add_paferr_features in Hin. destruct Hin as (Hb & _).
  rewrite Forall_forall in Hdf. destruct (Hdf _ Hb) as (_ & H1 & H2 & H3 & H4).
  unfold buy_signal. simpl. rewrite Hm. simpl.
  eexists; eexists. split; [reflexivity|]. split; [reflexivity|].
  nra.
Qed.

Lemma well_formed_barb_sound df :
  forallb well_formed_barb df = true -> Forall well_formed_bar df.
Proof.
  rewrite forallb_forall, Forall_forall. intros H b Hb.
  specialize (H b Hb). unfold well_formed_barb in H.
  rewrite !andb_true_iff, !Qle_bool_iff in H. unfold well_formed_bar. tauto.
Qed.

Lemma buy_stop_below_target_witness :
  exists s self' sl tp,
    generate_signal default_risk (init default_strategy) buy_bars
    = (Some s, self')
    /\ stop_loss s = Some (Some sl) /\ take_profit s = Some (Some tp)
    /\ sl < tp.
Proof.
  destruct buy_bars_emit as (s & self' & E & Ha).
  destruct (buy_stop_below_target default_risk (init default_strategy) self'
              buy_bars s) as (sl & tp & H1 & H2 & H3); auto.
  - vm_compute. discriminate.
  - vm_compute. repeat constructor.
  - apply well_formed_barb_sound. vm_compute. reflexivity.
  - exists s, self', sl, tp. auto.
Defined.

(** C7, counterexample.  On the well-formed [sell_bars] the engine emits a
    sell whose stop (3019.92...) is above its target (2643.5). *)
Lemma sell_stop_above_target :
  Forall well_formed_bar sell_bars
  /\ exists s self' sl tp,
       generate_signal default_risk (init default_strategy) sell_bars
       = (Some s, self')
       /\ action s = sell
       /\ stop_loss s = Some (Some sl) /\ take_profit s = Some (Some tp)
       /\ ~ sl < tp.
Proof.
  split; [apply well_formed_barb_sound; vm_compute; reflexivity|].
  eexists; eexists; eexists; eexists.
  split; [vm_compute; reflexivity|].
  split; [reflexivity|]. split; [reflexivity|]. split; [reflexivity|].
  apply Qle_not_lt. qcompare.
Qed.

(** *** Cooldown *)

Section Cooldown.

Variable risk : RiskConfig.

Lemma bar_time_latest df cfg t :
  bar_time df = Some t ->
  exists latest, iloc_last (add_paferr_features df cfg) = Some latest
                 /\ timestamp (bar latest) = t.
Proof.
  unfold bar_time. intros H.
  pose proof (iloc_last_add_paferr_features df cfg) as E.
  destruct (iloc_last df) as [b|]; [|discriminate].
  injection H as <-.
  destruct (iloc_last (add_paferr_features df cfg)) as [latest|];
    [|discriminate].
  injection E as <-. exists latest. auto.
Qed.

Lemma cooldown_blocks T self df t :
  fired_since T self -> bar_time df = Some t ->
  (t - T < signal_cooldown self)%Z ->
  generate_signal risk self df = (None, self).
Proof.
  intros (t0 & Ht0 & HT) Hbt Hlt. unfold generate_signal.
  destruct (length df <? 50)%nat; [reflexivity|].
  destruct (bar_time_latest df (config self) t Hbt) as (latest & -> & <-).
  unfold cooling_down. rewrite Ht0.
  destruct (Z.ltb_spec (timestamp (bar latest) - t0) (signal_cooldown self));
    [reflexivity | lia].
Qed.

Lemma fired_since_preserved T self df :
  (0 <= signal_cooldown self)%Z -> fired_since T self ->
  fired_since T (snd (generate_signal risk self df))
  /\ signal_cooldown (snd (generate_signal risk self df))
     = signal_cooldown self.
Proof.
  intros Hcd (t0 & Ht0 & HT).
  destruct (generate_signal_state risk self df) as [-> | (latest & _ & Hc & ->)].
  - split; [exists t0; auto | reflexivity].
  - split; [|reflexivity]. exists (timestamp (bar latest)).
    split; [reflexivity|]. unfold cooling_down in Hc. rewrite Ht0 in Hc.
    apply Z.ltb_ge in Hc. lia.
Qed.

Lemma cooldown_preserved self df :
  signal_cooldown (snd (generate_signal risk self df)) = signal_cooldown self.
Proof.
  destruct (generate_signal_state risk self df) as [-> | (latest & _ & _ & ->)];
    reflexivity.
Qed.

Lemma run_cons self df frames :
  run risk self (df :: frames)
  = fst (generate_signal risk self df)
    :: run risk (snd (generate_signal risk self df)) frames.
Proof. simpl. destruct (generate_signal risk self df). reflexivity. Qed.

Lemma run_blocked T frames : forall self j fj tj,
  (0 <= signal_cooldown self)%Z -> fired_since T self ->
  nth_error frames j = Some fj -> bar_time fj = Some tj ->
  (tj - T < signal_cooldown self)%Z ->
  nth_error (run risk self frames) j = Some None.
Proof.
  induction frames as [|df frames IH]; intros self j fj tj Hcd Hf Hj Hbt Hlt.
  - destruct j; discriminate.
  - rewrite run_cons. destruct j as [|j]; simpl in Hj |- *.
    + injection Hj as ->. now rewrite (cooldown_blocks T self fj tj).
    + destruct (fired_since_preserved T self df Hcd Hf) as [Hf' Hcd'].
      apply (IH _ j fj tj); rewrite ?Hcd'; auto.
Qed.

(** [reset()] clears the cooldown: the next evaluation is not blocked. *)
Lemma reset_clears_cooldown self now :
  cooling_down (reset self) now = false.
Proof. reflexivity. Qed.

End Cooldown.

(** C2.  Of two [generate_signal] calls on one instance whose last-bar
    timestamps are less than the cooldown window apart, when the earlier
    call returns a buy or a sell the later call returns no signal. *)
Theorem cooldown_suppresses_second_signal (risk : RiskConfig)
  (self : PAFERStrategy) (frames : list (list Bar)) (i j : nat)
  (fi fj : list Bar) (ti tj : Z) (ri : option Signal) :
  (i < j)%nat ->
  nth_error frames i = Some fi -> nth_error frames j = Some fj ->
  bar_time fi = Some ti -> bar_time fj = Some tj ->
  (Z.abs (tj - ti) < signal_cooldown self)%Z ->
  nth_error (run risk self frames) i = Some ri ->
  emits ri = true ->
  nth_error (run risk self frames) j = Some None.
Proof.
  revert self i j.
  induction frames as [|df frames IH];
    intros self i j Hij Hi Hj Hti Htj Habs Hri He.
  - destruct i; discriminate.
  - rewrite run_cons in Hri |- *.
    destruct j as [|j]; [lia|]. destruct i as [|i]; simpl in Hi, Hj, Hri |- *.
    + injection Hi as ->. injection Hri as <-.
      destruct (generate_signal risk self fi) as [[s|] self'] eqn:E;
        [|discriminate].
      simpl in He |- *.
      assert (Ha : action s <> hold)
        by (intros Ha; rewrite Ha in He; discriminate).
      destruct (generate_signal_emits _ _ _ _ _ E Ha)
        as (latest & Hl & _ & _ & _ & -> & _).
      destruct (bar_time_latest fi (config self) ti Hti) as (l' & Hl' & Hts).
      rewrite Hl in Hl'. injection Hl' as <-.
      apply (run_blocked risk ti frames _ j fj tj); simpl; auto; try lia.
      exists (timestamp (bar latest)). split; [reflexivity | lia].
    + apply (IH _ i j); auto; try lia.
      now rewrite cooldown_preserved.
Qed.

Lemma cooldown_suppresses_second_signal_witness :
  nth_error (run default_risk (init default_strategy)
                 [sell_bars; sell_bars_later]) 1 = Some None.
Proof.
  apply (cooldown_suppresses_second_signal default_risk
           (init default_strategy) [sell_bars; sell_bars_later] 0 1
           sell_bars sell_bars_later (900 * 49) (900 * 49 + 300)
           (fst (generate_signal default_risk (init default_strategy)
                                 sell_bars))).
  - lia.
  - reflexivity.
  - reflexivity.
  - vm_compute. reflexivity.
  - vm_compute. reflexivity.
  - vm_compute. reflexivity.
  - rewrite run_cons. reflexivity.
  - vm_compute. reflexivity.
Defined.

(** ** The virtual trade simulator *)

Section ExecutorFacts.

Variable exch : ExchangeConfig.

(** The profit-and-loss ladder reads the signal and never writes the
    simulator. *)
Lemma simulate_pnl_state signal size fee exec self :
  snd (simulate_pnl signal size fee exec self) = self.
Proof.
  unfold simulate_pnl, bind, getitem, truediv, ret, raise.
  destruct (action signal), (stop_loss signal) as [sl|],
    (take_profit signal) as [tp|]; simpl;
    repeat match goal with
           | |- context [if ?c then _ else _] => destruct c; simpl
           end; reflexivity.
Qed.

(** [try_body], one path at a time. *)
Lemma try_body_paths signal price slippage ts self :
  let size := size_usd_of (virtual_balance self) in
  let fee := size * fee_rate_taker exch in
  let exec := exec_price_of (action signal) price slippage in
  match fst (simulate_pnl signal size fee exec self) with
  | inl e => try_body exch signal price slippage ts self = (inl e, self)
  | inr p =>
      let mid := after_bankruptcy_test self p in
      match reason signal with
      | None =>
          try_body exch signal price slippage ts self
          = (inl (KeyError "reason"), mid)
      | Some r =>
          let t := trade_dict signal r ts exec p fee (settled_balance self p) in
          try_body exch signal price slippage ts self
          = (inr t, {| db := db self ++ [t];
                       virtual_balance := settled_balance self p;
                       virtual_trades := virtual_trades mid ++ [t] |})
      end
  end.
Proof.
  cbv zeta.
  pose proof (simulate_pnl_state signal (size_usd_of (virtual_balance self))
    (size_usd_of (virtual_balance self) * fee_rate_taker exch)
    (exec_price_of (action signal) price slippage) self) as Hs.
  unfold try_body, after_bankruptcy_test, settled_balance, bind, get, put,
    ret, getitem, raise, reset_virtual_account, save_virtual_trade.
  cbv beta iota zeta.
  destruct (simulate_pnl _ _ _ _ self) as [[e|p] self0]; simpl in Hs |- *;
    subst self0; [reflexivity|].
  destruct (Qltb (virtual_balance self + p) 10), (reason signal);
    reflexivity.
Qed.

End ExecutorFacts.

(** C1.  When the balance before a non-hold trade plus the computed pnl is
    below 10, the call leaves the balance at 100 and none of the earlier
    trades in the buffer.  With a ['reason'] in the signal the trade is
    persisted, returned and put alone in the emptied buffer, and carries
    [balance_after = 100]; without one no trade is built and the buffer
    stays empty. *)
Theorem bankruptcy_resets_account (exch : ExchangeConfig)
  (self : TradeExecutor) (signal : Signal) (price slippage : Q) (ts : Z)
  (computed_pnl : Q) :
  action signal <> hold ->
  fst (simulate_pnl signal (size_usd_of (virtual_balance self))
         (size_usd_of (virtual_balance self) * fee_rate_taker exch)
         (exec_price_of (action signal) price slippage) self)
  = inr computed_pnl ->
  virtual_balance self + computed_pnl < 10 ->
  let out := execute_virtual_trade exch self signal price slippage ts in
  virtual_balance (snd out) = 100
  /\ match reason signal with
     | Some _ =>
         exists t, fst out = Executed t
                   /\ balance_after t = 100
                   /\ virtual_trades (snd out) = [t]
                   /\ db (snd out) = db self ++ [t]
     | None =>
         fst out = Failed "'reason'"
         /\ virtual_trades (snd out) = []
         /\ db (snd out) = db self
     end.
Proof.
  intros Ha Hp Hlt. cbv zeta. unfold execute_virtual_trade.
  pose proof (try_body_paths exch signal price slippage ts self) as Hb.
  cbv zeta in Hb. rewrite Hp in Hb.
  unfold after_bankruptcy_test, settled_balance in Hb.
  apply Qltb_lt in Hlt. rewrite Hlt in Hb.
  destruct (reason signal) as [r|]; rewrite Hb;
    destruct (action signal); try (now elim Ha); simpl; split; auto;
    eexists; repeat split; reflexivity.
Qed.

Lemma bankruptcy_resets_account_witness :
  let out := execute_virtual_trade default_exchange after_first_loss
                                   wipeout_sell 100 (1 # 1000) 1704068100 in
  virtual_balance (snd out) = 100
  /\ exists t, fst out = Executed t
               /\ balance_after t = 100
               /\ virtual_trades (snd out) = [t]
               /\ db (snd out) = db after_first_loss ++ [t].
Proof.
  eapply (bankruptcy_resets_account default_exchange after_first_loss
            wipeout_sell 100 (1 # 1000) 1704068100).
  - discriminate.
  - vm_compute. reflexivity.
  - qcompare.
Defined.




(** A buy filled at 100.1 under a stop at 110 books
    [50 * (110 - 100.1) / 100.1 - 0.03], a gain. *)
Example buy_below_stop_books_gain :
  exists t self',
    execute_virtual_trade default_exchange new_executor stopped_buy
                          100 (1 # 1000) 1704067200 = (Executed t, self')
    /\ pnl t == py_round (50 * (110 - (1001 # 10)) / (1001 # 10) - (3 # 100)) 6
    /\ 0 < pnl t
    /\ virtual_balance new_executor < virtual_balance self'.
Proof.
  eexists; eexists. split; [vm_compute; reflexivity|].
  repeat split; qcompare.
Qed.

(** When the account survives, a failed call leaves the simulator as it
    was. *)
Lemma failed_trade_without_bankruptcy (exch : ExchangeConfig)
  (self self' : TradeExecutor) (signal : Signal) (price slippage : Q)
  (ts : Z) (m : string) :
  execute_virtual_trade exch self signal price slippage ts = (Failed m, self') ->
  (forall p,
      fst (simulate_pnl signal (size_usd_of (virtual_balance self))
             (size_usd_of (virtual_balance self) * fee_rate_taker exch)
             (exec_price_of (action signal) price slippage) self) = inr p ->
      10 <= virtual_balance self + p) ->
  self' = self.
Proof.
  intros H Hsafe. unfold execute_virtual_trade in H.
  pose proof (try_body_paths exch signal price slippage ts self) as Hb.
  cbv zeta in Hb.
  destruct (fst (simulate_pnl _ _ _ _ self)) as [e|p] eqn:Hp.
  - rewrite Hb in H. destruct (action signal); now injection H as _ <-.
  - specialize (Hsafe p eq_refl). unfold after_bankruptcy_test in Hb.
    destruct (Qltb (virtual_balance self + p) 10) eqn:Hlt;
      [apply Qltb_lt in Hlt; lra|].
    destruct (reason signal); rewrite Hb in H;
      destruct (action signal); try discriminate; now injection H as _ <-.
Qed.

(** C9, at the failing input.  A sell dict without its ['reason'] key, on
    an account of 49.97 that the fill takes below 10: the call returns the
    error result, and the balance is 100 and the buffer empty where they
    were 49.97 and one trade. *)
Theorem failed_trade_after_bankruptcy_resets_state :
  let before := after_first_loss in
  let out := execute_virtual_trade default_exchange before unexplained_sell
                                   100 (1 # 1000) 1704068100 in
  fst out = Failed "'reason'"
  /\ virtual_balance before == 4997 # 100
  /\ length (virtual_trades before) = 1%nat
  /\ virtual_balance (snd out) == 100
  /\ virtual_trades (snd out) = []
  /\ snd out <> before.
Proof.
  cbv zeta. split; [vm_compute; reflexivity|].
  split; [qcompare|]. split; [vm_compute; reflexivity|].
  split; [qcompare|]. split; [vm_compute; reflexivity|].
  intros H. apply (f_equal virtual_trades) in H. vm_compute in H.
  discriminate.
Qed.

(** ** The objective of the optimizer *)

Section ObjectiveFacts.

Variable risk : RiskConfig.
Variable exch : ExchangeConfig.
Variable slippage : nat -> Q.
Variable df_sim : list Bar.

Lemma write_params_last_signal params : forall self,
  last_signal_time (instance (write_params params self))
  = last_signal_time (instance self).
Proof.
  unfold write_params.
  induction params as [|[k v] params IH]; intros self; [reflexivity|].
  cbn [fold_left]. rewrite IH. unfold write_param.
  destruct (String.eqb k _); [reflexivity|].
  destruct (String.eqb k _); reflexivity.
Qed.

(** A window of fewer than 50 bars is passed over, whatever the
    configuration holds. *)
Lemma generate_signal_tuned_short self df :
  (length df < 50)%nat ->
  generate_signal_tuned risk self df = (inr None, self).
Proof.
  intros H. apply Nat.ltb_lt in H. unfold generate_signal_tuned.
  assert (E : generate_signal risk (instance self) df = (None, instance self))
    by (unfold generate_signal; now rewrite H).
  rewrite E, H. destruct self as [i k]. cbn [instance klines_float].
  destruct k as [q|]; [destruct (Qeq_bool q 0)|]; reflexivity.
Qed.

Lemma replay_loop_tuned_warm_up range : forall strategy executor trades,
  Forall (fun i => (i + 1 < 50)%nat) range ->
  replay_loop_tuned risk exch slippage df_sim range strategy executor trades
  = (inr trades, strategy, executor).
Proof.
  induction range as [|i range IH]; intros strategy executor trades H;
    [reflexivity|].
  inversion H as [|? ? Hi Hr]; subst. cbn [replay_loop_tuned].
  rewrite generate_signal_tuned_short by (rewrite length_firstn; lia).
  now apply IH.
Qed.

Lemma replay_loop_tuned_app r1 : forall r2 strategy executor trades,
  replay_loop_tuned risk exch slippage df_sim (r1 ++ r2) strategy executor
                    trades
  = match replay_loop_tuned risk exch slippage df_sim r1 strategy executor
                            trades with
    | (inl e, strategy1, executor1) => (inl e, strategy1, executor1)
    | (inr trades1, strategy1, executor1) =>
        replay_loop_tuned risk exch slippage df_sim r2 strategy1 executor1
                          trades1
    end.
Proof.
  induction r1 as [|i r1 IH]; intros r2 strategy executor trades;
    [reflexivity|].
  cbn [app replay_loop_tuned].
  destruct (generate_signal_tuned risk strategy (firstn (i + 1) df_sim))
    as [[e|[s|]] strategy']; [reflexivity| |].
  - destruct (iloc_last (firstn (i + 1) df_sim)) as [latest|]; [|apply IH].
    destruct (action s); try apply IH;
      (destruct (execute_virtual_trade exch executor s (close latest)
                   (slippage i) (timestamp latest)) as [[|t|m] executor'];
       apply IH).
  - destruct (iloc_last (firstn (i + 1) df_sim)); apply IH.
Qed.

(** The first window of 50 bars reaches [df.tail] when the strategy has not
    fired. *)
Lemma generate_signal_tuned_raises self df q :
  klines_float self = Some q -> ~ q == 0 ->
  last_signal_time (instance self) = None ->
  (50 <= length df)%nat ->
  generate_signal_tuned risk self df = (inl TypeError, self).
Proof.
  intros Hk Hq Hfresh Hlen. unfold generate_signal_tuned. rewrite Hk.
  assert (Hz : Qeq_bool q 0 = false)
    by (apply not_true_iff_false; now rewrite Qeq_bool_iff).
  rewrite Hz.
  destruct (Nat.ltb_spec (length df) 50) as [|_]; [lia|].
  pose proof (iloc_last_add_paferr_features df (config (instance self))) as E.
  destruct (iloc_last (add_paferr_features df (config (instance self))))
    as [latest|].
  - unfold cooling_down. now rewrite Hfresh.
  - exfalso. destruct df as [|b df]; [simpl in Hlen; lia|].
    clear - E. cbn [option_map] in E. revert b E.
    induction df as [|c df IH]; intros b E; [discriminate|].
    apply (IH c). exact E.
Qed.

Lemma replay_tuned_raises strategy executor q :
  klines_float strategy = Some q -> ~ q == 0 ->
  last_signal_time (instance strategy) = None ->
  (50 <= length df_sim)%nat ->
  replay_tuned risk exch slippage df_sim strategy executor
  = (inl TypeError, strategy, executor).
Proof.
  intros Hk Hq Hfresh Hlen. unfold replay_tuned.
  replace (length df_sim - 10)%nat with (39 + S (length df_sim - 50))%nat
    by lia.
  rewrite seq_app, replay_loop_tuned_app, replay_loop_tuned_warm_up.
  - cbn [seq Nat.add replay_loop_tuned].
    rewrite (generate_signal_tuned_raises strategy _ q); auto.
    rewrite length_firstn. lia.
  - apply Forall_forall. intros i Hi. apply in_seq in Hi. lia.
Qed.

End ObjectiveFacts.

Lemma length_df_sim_of noise volume : length (df_sim_of noise volume) = 100%nat.
Proof. unfold df_sim_of. now rewrite length_map, length_seq. Qed.

(** C8, at the failing input.  When the call returns after a replay of
    fewer than 5 trades, it returns exactly -1.  But a trial with the
    parameters that both optimizers pass does not return: on a freshly
    built optimizer the parameter loop stores [max_klines_for_resonance]
    as the float 4.0, and at the first window of 50 bars, with no trade
    collected, [df.tail(4.0)] raises [TypeError], whatever bars and
    slippage the generator draws. *)
Theorem objective_raises_type_error :
  (forall risk exch noise volume slippage self strategy executor params
          trades strategy' executor',
      replay_tuned risk exch slippage (df_sim_of noise volume)
                   (write_params params strategy) executor
      = (inr trades, strategy', executor') ->
      (length trades < 5)%nat ->
      fst (fst (fst (_objective_function risk exch noise volume slippage self
                                         strategy executor params)))
      = inr (-1)%R)
  /\ (forall noise volume slippage,
        _objective_function default_risk default_exchange noise volume
                            slippage fresh_optimizer fresh_strategy
                            new_executor trial_params
        = (inl TypeError, fresh_optimizer,
           write_params trial_params fresh_strategy, new_executor)).
Proof.
  split.
  - intros risk exch noise volume slippage self strategy executor params
           trades strategy' executor' Hr Hlen.
    unfold _objective_function. rewrite Hr. unfold score_trades.
    apply Nat.ltb_lt in Hlen. rewrite Hlen. reflexivity.
  - intros noise volume slippage. unfold _objective_function.
    rewrite (replay_tuned_raises _ _ _ _ _ _ 4).
    + reflexivity.
    + reflexivity.
    + intros H. discriminate H.
    + reflexivity.
    + rewrite length_df_sim_of. repeat constructor.
Qed.

(** * Further properties *)

(** ** The resonance signal engine, again *)

Lemma resonance_exclusive r : is_bullish r = true -> is_bearish r = true -> False.
Proof.
  unfold is_bullish, is_bearish. intros Hb Hs.
  apply andb_true_iff in Hs. destruct Hs as [Hs _].
  apply Z.leb_le in Hb. apply Z.eqb_eq in Hs. lia.
Qed.

(** * Further properties *)

(** ** The signal engine and its instance *)

Section EngineFacts.

Variable risk : RiskConfig.

Lemma map_bar_map4 (df : list Bar) m k a :
  length m = length df -> length k = length df -> length a = length df ->
  map bar (map4 (fun b mc kc ac => {| bar := b; macd := mc; kdj := kc; ma := ac |})
                df m k a) = df.
Proof.
  revert m k a. induction df as [|b df IH]; intros [|x m] [|y k] [|z a];
    simpl; intros Hm Hk Ha; try discriminate; auto.
  f_equal. apply IH; congruence.
Qed.

Lemma map_bar_add_paferr_features df cfg :
  map bar (add_paferr_features df cfg) = df.
Proof.
  unfold add_paferr_features.
  apply map_bar_map4;
    auto using length_calculate_macd, length_calculate_kdj, length_calculate_ma.
Qed.

Lemma iloc_last_None {A} (l : list A) : iloc_last l = None -> l = [].
Proof.
  induction l as [|a l IH]; [reflexivity|]. simpl.
  destruct l as [|b l]; [discriminate|]. intros H. specialize (IH H).
  discriminate.
Qed.

(** The gates read the instance through its configuration only. *)
Lemma _check_resonance_config a b rows :
  config a = config b -> _check_resonance a rows = _check_resonance b rows.
Proof. unfold _check_resonance. now intros ->. Qed.

Lemma _check_momentum_config a b rows :
  config a = config b -> _check_momentum a rows = _check_momentum b rows.
Proof. unfold _check_momentum. now intros ->. Qed.

Lemma _check_timeliness_config a b rows :
  config a = config b -> _check_timeliness a rows = _check_timeliness b rows.
Proof. unfold _check_timeliness. now intros ->. Qed.

(** A frame of 50 bars or more has the PyBool/NpBool status its last row
    decides. *)
Lemma get_trend_status_long rows :
  (2 <= length rows)%nat -> exists b, get_trend_status rows = NpBool b.
Proof.
  intros H. unfold get_trend_status.
  destruct (Nat.ltb_spec (length rows) 2); [lia|].
  destruct (iloc_last rows) as [r|] eqn:E; [eexists; reflexivity|].
  apply iloc_last_None in E. subst. simpl in H. lia.
Qed.

Lemma aggregate_false_short cfg w rows :
  is_False (get_trend_status (aggregate_frame cfg w rows)) = true ->
  (length (resample w (map bar rows)) < 50)%nat.
Proof.
  unfold aggregate_frame.
  destruct (Nat.leb_spec 50 (length (resample w (map bar rows)))) as [H|H];
    [|auto].
  destruct (get_trend_status_long
              (add_paferr_features (resample w (map bar rows)) cfg)) as [b Hb].
  { rewrite length_add_paferr_features. lia. }
  rewrite Hb. discriminate.
Qed.

Lemma aggregate_short_false cfg w rows :
  (length (resample w (map bar rows)) < 50)%nat ->
  truth (get_trend_status (aggregate_frame cfg w rows)) = false.
Proof.
  intros H. unfold aggregate_frame.
  destruct (Nat.leb_spec 50 (length (resample w (map bar rows))));
    [lia | reflexivity].
Qed.

(** *** Coarser bins give fewer aggregate bars *)

Lemma resample_loop_coarser w1 w2 :
  (forall t, bin_of w2 (bin_of w1 t) = bin_of w2 t) ->
  forall rest cur1 cur2,
    timestamp cur2 = bin_of w2 (timestamp cur1) ->
    (length (resample_loop w2 cur2 rest)
     <= length (resample_loop w1 cur1 rest))%nat.
Proof.
  intros Hbin. induction rest as [|b rest IH]; intros cur1 cur2 Hts;
    [reflexivity|].
  simpl.
  destruct (Z.eqb_spec (bin_of w1 (timestamp b)) (timestamp cur1)) as [E1|E1];
    destruct (Z.eqb_spec (bin_of w2 (timestamp b)) (timestamp cur2)) as [E2|E2].
  - apply IH. simpl. exact Hts.
  - exfalso. apply E2. rewrite Hts, <- E1. symmetry. apply Hbin.
  - simpl. apply Nat.le_le_succ_r. apply IH. simpl. now rewrite Hbin.
  - simpl. apply le_n_S. apply IH. simpl. now rewrite Hbin.
Qed.

Lemma bin_of_hour_in_four_hours t :
  bin_of (4 * 60 * 60) (bin_of (60 * 60) t) = bin_of (4 * 60 * 60) t.
Proof.
  unfold bin_of. f_equal.
  change (4 * 60 * 60)%Z with (4 * 3600)%Z. change (60 * 60)%Z with 3600%Z.
  rewrite Z.div_mul_cancel_r by lia.
  rewrite Z.div_div by lia. reflexivity.
Qed.

Lemma resample_coarser df :
  (length (resample (4 * 60 * 60) df) <= length (resample (60 * 60) df))%nat.
Proof.
  unfold resample. destruct (sort_by_time df) as [|b rest]; [reflexivity|].
  apply resample_loop_coarser; [exact bin_of_hour_in_four_hours|].
  simpl. symmetry. apply bin_of_hour_in_four_hours.
Qed.

End EngineFacts.

(** X1.  [generate_signal] changes the instance only when it emits: the
    configuration and the cooldown are never touched, a call that returns no
    signal or a hold leaves the instance as it was, and a call that returns
    a buy or a sell sets [last_signal_time] to the timestamp of the last
    bar. *)
Theorem instance_changes_only_on_emission (risk : RiskConfig)
  (self : PAFERStrategy) (df : list Bar) :
  let out := generate_signal risk self df in
  config (snd out) = config self
  /\ signal_cooldown (snd out) = signal_cooldown self
  /\ (emits (fst out) = false -> snd out = self)
  /\ (emits (fst out) = true -> last_signal_time (snd out) = bar_time df).
Proof.
  cbv zeta. unfold generate_signal.
  destruct (length df <? 50)%nat; [simpl; intuition discriminate|].
  pose proof (iloc_last_add_paferr_features df (config self)) as Hb.
  destruct (iloc_last (add_paferr_features df (config self))) as [latest|];
    [|simpl; intuition discriminate].
  destruct (cooling_down _ _); [simpl; intuition discriminate|].
  unfold bar_time. rewrite <- Hb.
  destruct (is_bullish _ && _ && _); [simpl; intuition discriminate|].
  destruct (is_bearish _ && _ && _); simpl; intuition discriminate.
Qed.

(** X2.  After [reset()], a frame that made the engine emit makes it emit
    the same intent again: the cooldown left by the first emission is
    gone. *)
Theorem reset_allows_reemission (risk : RiskConfig)
  (self self' : PAFERStrategy) (df : list Bar) (s : Signal) :
  generate_signal risk self df = (Some s, self') ->
  action s <> hold ->
  generate_signal risk (reset self') df = (Some s, self').
Proof.
  intros H Ha.
  destruct (generate_signal_emits _ _ _ _ _ H Ha)
    as (latest & Hl & _ & Hm & Ht & -> & Hs).
  cbv zeta in Hs.
  unfold generate_signal in H |- *.
  destruct (length df <? 50)%nat; [discriminate|].
  change (config (reset (fired self (timestamp (bar latest)))))
    with (config self).
  rewrite Hl in H |- *.
  change (cooling_down (reset (fired self (timestamp (bar latest))))
                       (timestamp (bar latest))) with false.
  cbv iota.
  rewrite (_check_resonance_config (reset (fired self (timestamp (bar latest))))
             self) by reflexivity.
  rewrite (_check_momentum_config (reset (fired self (timestamp (bar latest))))
             self) by reflexivity.
  rewrite (_check_timeliness_config (reset (fired self (timestamp (bar latest))))
             self) by reflexivity.
  rewrite Hm, Ht, !andb_true_r.
  destruct Hs as [[Hb ->] | [Hb ->]].
  - rewrite Hb. reflexivity.
  - destruct (is_bullish _) eqn:Hbull.
    + exfalso.
      destruct (resonance_exclusive
                  (_check_resonance self (add_paferr_features df (config self))));
        congruence.
    + rewrite Hb. reflexivity.
Qed.

Lemma reset_allows_reemission_witness :
  exists s self',
    generate_signal default_risk (init default_strategy) sell_bars
    = (Some s, self')
    /\ action s = sell
    /\ generate_signal default_risk self' sell_bars = (None, self')
    /\ generate_signal default_risk (reset self') sell_bars = (Some s, self').
Proof.
  destruct (generate_signal default_risk (init default_strategy) sell_bars)
    as [[s|] self'] eqn:E; [|vm_compute in E; discriminate].
  assert (Ha : action s = sell) by (vm_compute in E; now injection E as <- _).
  exists s, self'. split; [reflexivity|]. split; [exact Ha|]. split.
  - vm_compute in E. injection E as _ <-. vm_compute. reflexivity.
  - apply (reset_allows_reemission default_risk (init default_strategy));
      [exact E | rewrite Ha; discriminate].
Defined.

(** X3.  A sell is emitted only while the 4-hour aggregate has fewer than 50
    bars: with 50 or more, the 4h trend is a NumPy boolean, which is never
    the constant [False] that the bearish test asks for. *)
Theorem sell_needs_short_4h_history (risk : RiskConfig)
  (self self' : PAFERStrategy) (df : list Bar) (s : Signal) :
  generate_signal risk self df = (Some s, self') ->
  action s = sell ->
  (length (resample (4 * 60 * 60) df) < 50)%nat.
Proof.
  intros H Ha.
  destruct (generate_signal_emits _ _ _ _ _ H ltac:(rewrite Ha; discriminate))
    as (latest & _ & _ & _ & _ & _ & Hs).
  cbv zeta in Hs. destruct Hs as [[_ ->] | [Hb _]]; [discriminate|].
  unfold is_bearish in Hb. apply andb_true_iff in Hb. destruct Hb as [_ Hb].
  unfold _check_resonance in Hb. cbn [r4h] in Hb.
  apply aggregate_false_short in Hb.
  now rewrite map_bar_add_paferr_features in Hb.
Qed.

Lemma sell_needs_short_4h_history_witness :
  (length (resample (4 * 60 * 60) sell_bars) < 50)%nat.
Proof.
  destruct (generate_signal default_risk (init default_strategy) sell_bars)
    as [[s|] self'] eqn:E; [|vm_compute in E; discriminate].
  apply (sell_needs_short_4h_history default_risk (init default_strategy)
           self' sell_bars s E).
  vm_compute in E. now injection E as <- _.
Defined.

(** X4.  A buy is emitted only when the 1-hour aggregate has at least 50
    bars: with fewer, the 1h and the 4h trends are both false and the
    resonance count cannot reach 3. *)
Theorem buy_needs_hourly_history (risk : RiskConfig)
  (self self' : PAFERStrategy) (df : list Bar) (s : Signal) :
  generate_signal risk self df = (Some s, self') ->
  action s = buy ->
  (50 <= length (resample (60 * 60) df))%nat.
Proof.
  intros H Ha.
  destruct (generate_signal_emits _ _ _ _ _ H ltac:(rewrite Ha; discriminate))
    as (latest & _ & _ & _ & _ & _ & Hs).
  cbv zeta in Hs. destruct Hs as [[Hb _] | [_ ->]]; [|discriminate].
  destruct (Nat.leb_spec 50 (length (resample (60 * 60) df))) as [|Hlt];
    [assumption|exfalso].
  pose proof (resample_coarser df) as Hc.
  unfold is_bullish, total_resonance, _check_resonance in Hb.
  cbn [r15m r30m r1h r4h] in Hb.
  rewrite (aggregate_short_false (config self) (60 * 60)) in Hb
    by (rewrite map_bar_add_paferr_features; exact Hlt).
  rewrite (aggregate_short_false (config self) (4 * 60 * 60)) in Hb
    by (rewrite map_bar_add_paferr_features; lia).
  apply Z.leb_le in Hb.
  destruct (truth _), (truth _); simpl in Hb; lia.
Qed.

Lemma buy_needs_hourly_history_witness :
  (50 <= length (resample (60 * 60) buy_bars))%nat.
Proof.
  destruct buy_bars_emit as (s & self' & E & Ha).
  exact (buy_needs_hourly_history default_risk (init default_strategy)
           self' buy_bars s E Ha).
Defined.

(** ** A flat market *)

Section FlatMarket.

Lemma ewm_loop_constant alpha w vals : forall o,
  Forall (fun v => exists c, v = Some c /\ c == w) vals ->
  constant_column (Some w) (ewm_loop alpha (Some w) o vals).
Proof.
  induction vals as [|v vals IH]; intros o H; [constructor|].
  inversion H as [|? ? (c & -> & Hc) Hrest]; subst.
  cbn [ewm_loop].
  assert (E : Qeq_bool w c = true) by (apply Qeq_bool_iff; now symmetry).
  rewrite E. constructor; [reflexivity|]. apply IH. exact Hrest.
Qed.

Lemma ewm_mean_constant span vals w :
  Forall (fun v => exists c, v = Some c /\ c == w) vals ->
  exists w0, w0 == w /\ constant_column (Some w0) (ewm_mean span vals)
             \/ vals = [].
Proof.
  intros H. destruct vals as [|v vals]; [exists w; right; reflexivity|].
  inversion H as [|? ? (c & -> & Hc) Hrest]; subst.
  exists c. left. split; [exact Hc|]. cbn [ewm_mean].
  constructor; [reflexivity|]. apply ewm_loop_constant.
  eapply Forall_impl; [|exact Hrest]. intros v (c' & -> & Hc').
  exists c'. split; [reflexivity|]. now rewrite Hc', Hc.
Qed.

Lemma ewm_mean_of_constant span v vals :
  constant_column (Some v) vals -> constant_column (Some v) (ewm_mean span vals).
Proof.
  intros H. destruct vals as [|x vals]; [constructor|].
  inversion H; subst. cbn [ewm_mean]. constructor; [reflexivity|].
  apply ewm_loop_constant. eapply Forall_impl; [|eassumption].
  intros y ->. exists v. split; reflexivity.
Qed.

Lemma map2_constant {A B C} (f : A -> B -> C) a b l m :
  constant_column a l -> constant_column b m ->
  constant_column (f a b) (map2 f l m).
Proof.
  intros Hl. revert m. induction Hl as [|x l -> _ IH]; intros m Hm;
    [constructor|].
  destruct Hm as [|y m -> Hm]; [constructor|].
  simpl. constructor; [reflexivity | now apply IH].
Qed.

Lemma map_constant {A B} (f : A -> B) a l :
  constant_column a l -> constant_column (f a) (map f l).
Proof.
  induction 1 as [|x l -> _ IH]; simpl; constructor; auto.
Qed.

Lemma In_removelast {A} (l : list A) x : In x (removelast l) -> In x l.
Proof.
  induction l as [|a l IH]; [tauto|].
  destruct l as [|b l]; [simpl; tauto|].
  change (removelast (a :: b :: l)) with (a :: removelast (b :: l)).
  intros [<- | H]; [left; reflexivity | right; auto].
Qed.

Lemma In_shift1 {A} (l : list (option A)) x :
  In x (shift1 l) -> x = None \/ In x l.
Proof.
  destruct l as [|a l]; [tauto|]. unfold shift1.
  intros [<- | H]; [now left | right; now apply In_removelast].
Qed.

(** On closes that are all equal, the histogram is 0 on every row and the
    momentum is 0 wherever it is defined. *)
Lemma flat_macd df fast slow signal c :
  Forall (fun b => close b == c) df ->
  Forall (fun r =>
            (exists h, c_macd_hist r = Some h /\ h == 0)
            /\ (c_macd_momentum_pct r = None
                \/ exists m, c_macd_momentum_pct r = Some m /\ m == 0))
         (calculate_macd df fast slow signal).
Proof.
  intros Hflat. unfold calculate_macd.
  set (closes := map (fun b => Some (close b)) df).
  assert (Hc : Forall (fun v => exists q, v = Some q /\ q == c) closes).
  { unfold closes. apply Forall_forall. intros v Hv. apply in_map_iff in Hv.
    destruct Hv as (b & <- & Hb). rewrite Forall_forall in Hflat.
    exists (close b). split; [reflexivity | now apply Hflat]. }
  destruct (ewm_mean_constant fast closes c Hc) as [f [[_ Hf] | Hnil]];
    [|rewrite Hnil; constructor].
  destruct (ewm_mean_constant slow closes c Hc) as [s [[_ Hs] | Hnil]];
    [|rewrite Hnil; constructor].
  set (line := map2 _ (ewm_mean fast closes) (ewm_mean slow closes)).
  assert (Hline : constant_column (Some (Qred (f - s))) line)
    by exact (map2_constant (fop2 (fun x y => Qred (x - y))) (Some f) (Some s)
                            _ _ Hf Hs).
  pose proof (ewm_mean_of_constant signal _ _ Hline) as Hsig.
  set (z := Qred (f - s)) in *.
  set (hist := map2 _ line (ewm_mean signal line)).
  assert (Hhist : constant_column (Some (Qred (z - z))) hist)
    by exact (map2_constant (fop2 (fun x y => Qred (x - y))) (Some z) (Some z)
                            _ _ Hline Hsig).
  set (h := Qred (z - z)) in *.
  assert (Hh : h == 0) by (unfold h; rewrite Qred_correct; ring).
  pose proof (map_constant (fop1 Qabs) _ _ Hhist) as Harea. simpl in Harea.
  apply Forall_forall. intros r Hr.
  apply In_map2 in Hr. destruct Hr as ([l sg] & [hv [d m]] & _ & Hr & ->).
  simpl.
  pose proof (in_combine_l _ _ _ _ Hr) as Hhv.
  apply in_combine_r, in_combine_r in Hr.
  unfold constant_column in Hhist, Harea. rewrite Forall_forall in Hhist, Harea.
  split.
  - exists h. split; [now apply Hhist | exact Hh].
  - apply In_map2 in Hr. destruct Hr as (a & p & Ha & Hp & ->).
    apply Harea in Ha. subst a. apply In_shift1 in Hp.
    destruct Hp as [-> | Hp]; [now left|].
    apply Harea in Hp. subst p. right. eexists. split; [reflexivity|].
    rewrite Qred_correct. unfold Qdiv. ring.
Qed.

End FlatMarket.

(** X5.  A flat market never triggers the engine: when all closes are equal
    and the momentum threshold is not negative, [generate_signal] returns
    no signal or a hold, whatever the highs, lows and timestamps. *)
Theorem flat_market_never_emits (risk : RiskConfig) (self : PAFERStrategy)
  (df : list Bar) (c : Q) :
  Forall (fun b => close b == c) df ->
  0 <= momentum_threshold_pct (config self) ->
  emits (fst (generate_signal risk self df)) = false.
Proof.
  intros Hflat Hthr.
  destruct (generate_signal risk self df) as [[s|] self'] eqn:E;
    [|reflexivity].
  simpl. destruct (Action_eqb (action s) hold) eqn:Ha; [reflexivity|exfalso].
  assert (Hne : action s <> hold)
    by (intros Hh; rewrite Hh in Ha; discriminate).
  destruct (generate_signal_emits _ _ _ _ _ E Hne)
    as (latest & Hl & _ & Hm & _).
  unfold _check_momentum in Hm. rewrite Hl in Hm.
  apply andb_true_iff in Hm. destruct Hm as [Hm _].
  apply iloc_last_In, In_add_paferr_features in Hl.
  destruct Hl as (_ & Hl & _).
  pose proof (flat_macd df (macd_fast (config self)) (macd_slow (config self))
                (macd_signal (config self)) c Hflat) as F.
  rewrite Forall_forall in F. destruct (F _ Hl) as [_ [Hn | (m & Hmm & Hz)]];
    unfold macd_momentum_pct in Hm.
  - rewrite Hn in Hm. discriminate.
  - rewrite Hmm in Hm. simpl in Hm. apply Qgtb_gt in Hm.
    rewrite Hz in Hm. simpl in Hm. lra.
Qed.

Lemma flat_market_never_emits_witness :
  emits (fst (generate_signal default_risk (init default_strategy) (flat 60)))
  = false.
Proof.
  apply (flat_market_never_emits default_risk (init default_strategy)
           (flat 60) 3000).
  - unfold flat. apply Forall_forall. intros b Hb. apply in_map_iff in Hb.
    destruct Hb as (i & <- & _). reflexivity.
  - vm_compute. discriminate.
Defined.

(** ** The indicator columns, row by row *)

Section RowFacts.

Lemma nth_error_map2 {A B C} (f : A -> B -> C) l m i :
  nth_error (map2 f l m) i
  = match nth_error l i, nth_error m i with
    | Some a, Some b => Some (f a b)
    | _, _ => None
    end.
Proof.
  revert m i. induction l as [|a l IH]; intros m i.
  - destruct i; reflexivity.
  - destruct m as [|b m].
    + destruct i; simpl; [reflexivity|].
      destruct (nth_error l i); [destruct i; reflexivity | reflexivity].
    + destruct i; simpl; [reflexivity | apply IH].
Qed.

Lemma combine_map2 {A B} (l : list A) (m : list B) :
  combine l m = map2 pair l m.
Proof.
  revert m. induction l as [|a l IH]; intros [|b m]; simpl; auto.
  now rewrite IH.
Qed.

Lemma nth_error_map4 {A B C D E} (f : A -> B -> C -> D -> E) a b c d i e :
  nth_error (map4 f a b c d) i = Some e ->
  exists x y z w,
    nth_error a i = Some x /\ nth_error b i = Some y
    /\ nth_error c i = Some z /\ nth_error d i = Some w /\ e = f x y z w.
Proof.
  revert b c d i. induction a as [|x a IH]; intros [|y b] [|z c] [|w d] [|i];
    simpl; try discriminate.
  - intros [= <-]. exists x, y, z, w. auto.
  - apply IH.
Qed.

Lemma nth_error_rolling n agg col i :
  nth_error (rolling n agg col) i
  = if (i <? length col)%nat
    then Some (if ((1 <=? n) && (n <=? i + 1))%nat
               then Some (agg (window_at n i col)) else None)
    else None.
Proof.
  unfold rolling. rewrite nth_error_map, nth_error_seq.
  destruct (i <? length col)%nat; reflexivity.
Qed.

(** The window that ends at row [i] has [n] rows and ends with row [i]. *)
Lemma length_window_at {A} n i (col : list A) :
  (n <= i + 1)%nat -> (i < length col)%nat -> length (window_at n i col) = n.
Proof.
  intros H1 H2. unfold window_at. rewrite length_firstn, length_skipn. lia.
Qed.

Lemma window_at_last {A} n i (col : list A) x :
  (1 <= n)%nat -> (n <= i + 1)%nat -> nth_error col i = Some x ->
  In x (window_at n i col).
Proof.
  intros H1 H2 Hx. unfold window_at.
  apply (nth_error_In _ (n - 1)).
  rewrite nth_error_firstn.
  destruct (Nat.ltb_spec (n - 1) n); [|lia].
  rewrite nth_error_skipn. replace (i + 1 - n + (n - 1))%nat with i by lia.
  exact Hx.
Qed.

(** The long MA of a row of [calculate_ma]. *)
Lemma nth_error_calculate_ma df a b c i x :
  nth_error (calculate_ma df a b c) i = Some x ->
  (i < length df)%nat
  /\ c_ma5 x = (if ((1 <=? a) && (a <=? i + 1))%nat
                then Some (Qmean (window_at a i (map close df))) else None)
  /\ c_ma10 x = (if ((1 <=? b) && (b <=? i + 1))%nat
                 then Some (Qmean (window_at b i (map close df))) else None)
  /\ c_ma45 x = (if ((1 <=? c) && (c <=? i + 1))%nat
                 then Some (Qmean (window_at c i (map close df))) else None).
Proof.
  unfold calculate_ma. rewrite nth_error_map2, !combine_map2, !nth_error_map2,
    !nth_error_rolling, length_map.
  destruct (i <? length df)%nat eqn:Hi; [|discriminate].
  apply Nat.ltb_lt in Hi.
  repeat match goal with
         | |- context [match nth_error ?l ?j with _ => _ end] =>
             destruct (nth_error l j)
         end; try discriminate; intros [= <-]; simpl; auto.
Qed.

Lemma nth_error_row_ma df cfg i r :
  nth_error (add_paferr_features df cfg) i = Some r ->
  nth_error df i = Some (bar r)
  /\ nth_error (calculate_ma df (ma_short cfg) (ma_mid cfg) (ma_long cfg)) i
     = Some (ma r)
  /\ nth_error (calculate_kdj df (kdj_period cfg) (kdj_smooth_k cfg)
                              (kdj_smooth_d cfg)) i = Some (kdj r).
Proof.
  unfold add_paferr_features. intros H. apply nth_error_map4 in H.
  destruct H as (b & m & k & a & Hb & Hm & Hk & Ha & ->). simpl. auto.
Qed.

(** *** Means stay within the range of what they average *)

Lemma Qsum_bounds lo hi l :
  Forall (fun x => lo <= x <= hi) l ->
  lo * inject_Z (Z.of_nat (length l)) <= Qsum l
  /\ Qsum l <= hi * inject_Z (Z.of_nat (length l)).
Proof.
  induction 1 as [|x l [Hlo Hhi] _ [IH1 IH2]].
  - simpl. split; rewrite Qmult_0_r; apply Qle_refl.
  - cbn [length Qsum fold_right]. fold (Qsum l).
    rewrite Nat2Z.inj_succ, <- Z.add_1_r, inject_Z_plus.
    change (inject_Z 1) with 1.
    set (n := inject_Z (Z.of_nat (length l))) in *.
    split; nra.
Qed.

Lemma Qmean_bounds lo hi l :
  l <> [] -> Forall (fun x => lo <= x <= hi) l -> lo <= Qmean l <= hi.
Proof.
  intros Hne H. destruct (Qsum_bounds lo hi l H) as [H1 H2].
  unfold Qmean. rewrite Qred_correct.
  assert (Hlen : 0 < inject_Z (Z.of_nat (length l))).
  { change 0 with (inject_Z 0). rewrite <- Zlt_Qlt.
    destruct l; [now elim Hne | simpl; lia]. }
  split; [apply Qle_shift_div_l | apply Qle_shift_div_r]; assumption.
Qed.

End RowFacts.

(** X6.  Warm-up of the moving averages: with a window of [n >= 1] bars, the
    MA of row [i] (counted from 0) is undefined exactly on the first
    [n - 1] rows; the same holds for the short, the middle and the long
    MA. *)
Theorem moving_average_warm_up (cfg : StrategyConfig) (df : list Bar)
  (i : nat) (r : Row) :
  (1 <= ma_short cfg)%nat -> (1 <= ma_mid cfg)%nat -> (1 <= ma_long cfg)%nat ->
  nth_error (add_paferr_features df cfg) i = Some r ->
  (c_ma5 (ma r) = None <-> (i + 1 < ma_short cfg)%nat)
  /\ (c_ma10 (ma r) = None <-> (i + 1 < ma_mid cfg)%nat)
  /\ (ma45 r = None <-> (i + 1 < ma_long cfg)%nat).
Proof.
  intros Ha Hb Hc H. apply nth_error_row_ma in H. destruct H as (_ & H & _).
  apply nth_error_calculate_ma in H. destruct H as (_ & H5 & H10 & H45).
  unfold ma45. rewrite H5, H10, H45.
  repeat split;
    match goal with
    | |- context [((1 <=? ?n) && (?n <=? i + 1))%nat] =>
        destruct (Nat.leb_spec 1 n); [|lia];
        destruct (Nat.leb_spec n (i + 1)); simpl;
        first [discriminate | lia | reflexivity | idtac]
    end; try (intros; discriminate); try (intros; lia).
Qed.

Lemma moving_average_warm_up_witness :
  exists r43 r44,
    nth_error (add_paferr_features (flat 60) default_strategy) 43 = Some r43
    /\ nth_error (add_paferr_features (flat 60) default_strategy) 44 = Some r44
    /\ ma45 r43 = None /\ ma45 r44 <> None.
Proof.
  destruct (nth_error (add_paferr_features (flat 60) default_strategy) 43)
    as [r43|] eqn:E43; [|vm_compute in E43; discriminate].
  destruct (nth_error (add_paferr_features (flat 60) default_strategy) 44)
    as [r44|] eqn:E44; [|vm_compute in E44; discriminate].
  exists r43, r44. split; [reflexivity|]. split; [reflexivity|].
  assert (H5 : (1 <= ma_short default_strategy)%nat)
    by (vm_compute; repeat constructor).
  assert (H10 : (1 <= ma_mid default_strategy)%nat)
    by (vm_compute; repeat constructor).
  assert (H45 : (1 <= ma_long default_strategy)%nat)
    by (vm_compute; repeat constructor).
  destruct (moving_average_warm_up default_strategy (flat 60) 43 r43
              H5 H10 H45 E43) as (_ & _ & H43).
  destruct (moving_average_warm_up default_strategy (flat 60) 44 r44
              H5 H10 H45 E44) as (_ & _ & H44).
  split.
  - apply H43. vm_compute. repeat constructor.
  - intros Hn. apply H44 in Hn. vm_compute in Hn. lia.
Defined.

(** X7.  A moving average never leaves the range of the closes: when every
    close lies between [lo] and [hi], so does every defined value of the
    short, the middle and the long MA. *)
Theorem moving_averages_within_close_range (cfg : StrategyConfig)
  (df : list Bar) (lo hi : Q) (r : Row) :
  Forall (fun b => lo <= close b <= hi) df ->
  In r (add_paferr_features df cfg) ->
  (forall m, c_ma5 (ma r) = Some m -> lo <= m <= hi)
  /\ (forall m, c_ma10 (ma r) = Some m -> lo <= m <= hi)
  /\ (forall m, ma45 r = Some m -> lo <= m <= hi).
Proof.
  intros Hdf Hr. apply In_nth_error in Hr. destruct Hr as [i Hi].
  apply nth_error_row_ma in Hi. destruct Hi as (_ & Hi & _).
  apply nth_error_calculate_ma in Hi. destruct Hi as (Hlen & H5 & H10 & H45).
  assert (Hw : forall n, (1 <= n)%nat -> (n <= i + 1)%nat ->
               lo <= Qmean (window_at n i (map close df)) <= hi).
  { intros n H1 H2. apply Qmean_bounds.
    - intros E. apply (f_equal (@length Q)) in E.
      rewrite length_window_at in E by (rewrite ?length_map; lia).
      simpl in E. lia.
    - apply Forall_forall. intros x Hx. apply window_at_incl in Hx.
      apply in_map_iff in Hx. destruct Hx as (b & <- & Hb).
      rewrite Forall_forall in Hdf. now apply Hdf. }
  unfold ma45. rewrite H5, H10, H45.
  split; [|split]; intros m Hm;
    match type of Hm with
    | context [((1 <=? ?n) && (?n <=? i + 1))%nat] =>
        destruct (Nat.leb_spec 1 n); [|discriminate];
        destruct (Nat.leb_spec n (i + 1)); [|discriminate];
        simpl in Hm; injection Hm as <-; now apply Hw
    end.
Qed.

Lemma moving_averages_within_close_range_witness :
  exists r m,
    iloc_last (add_paferr_features sell_bars default_strategy) = Some r
    /\ ma45 r = Some m /\ 3000 <= m <= 3100.
Proof.
  destruct (iloc_last (add_paferr_features sell_bars default_strategy))
    as [r|] eqn:E; [|vm_compute in E; discriminate].
  destruct (ma45 r) as [m|] eqn:Em;
    [|vm_compute in E; injection E as <-; vm_compute in Em; discriminate].
  exists r, m. split; [reflexivity|]. split; [exact Em|].
  destruct (moving_averages_within_close_range default_strategy sell_bars
              3000 3100 r) as (_ & _ & H).
  - apply Forall_forall. intros b Hb.
    assert (Hc : Qle_bool 3000 (close b) && Qle_bool (close b) 3100 = true).
    { revert b Hb. apply forallb_forall. vm_compute. reflexivity. }
    apply andb_true_iff in Hc. now rewrite !Qle_bool_iff in Hc.
  - apply iloc_last_In, E.
  - apply H, Em.
Defined.

(** ** The stochastic oscillator *)

Section KdjFacts.

Lemma fold_left_Qmin_le r : forall a,
  fold_left Qmin r a <= a /\ forall x, In x r -> fold_left Qmin r a <= x.
Proof.
  induction r as [|y r IH]; intros a; simpl.
  - split; [apply Qle_refl | intros x []].
  - destruct (IH (Qmin a y)) as [H1 H2]. split.
    + eapply Qle_trans; [exact H1 | apply Q.le_min_l].
    + intros x [<- | Hx]; [|auto].
      eapply Qle_trans; [exact H1 | apply Q.le_min_r].
Qed.

Lemma Qmin_list_le l x : In x l -> Qmin_list l <= x.
Proof.
  destruct l as [|a r]; [intros []|]. simpl.
  destruct (fold_left_Qmin_le r a) as [H1 H2].
  intros [<- | Hx]; auto.
Qed.

Lemma fold_left_Qmax_ge r : forall a,
  a <= fold_left Qmax r a /\ forall x, In x r -> x <= fold_left Qmax r a.
Proof.
  induction r as [|y r IH]; intros a; simpl.
  - split; [apply Qle_refl | intros x []].
  - destruct (IH (Qmax a y)) as [H1 H2]. split.
    + eapply Qle_trans; [apply Q.le_max_l | exact H1].
    + intros x [<- | Hx]; [|auto].
      eapply Qle_trans; [apply Q.le_max_r | exact H1].
Qed.

Lemma Qmax_list_ge l x : In x l -> x <= Qmax_list l.
Proof.
  destruct l as [|a r]; [intros []|]. simpl.
  destruct (fold_left_Qmax_ge r a) as [H1 H2].
  intros [<- | Hx]; auto.
Qed.

Lemma alpha_of_span_bounds span :
  (1 <= span)%nat -> 0 < alpha_of_span span /\ alpha_of_span span <= 1.
Proof.
  intros H. unfold alpha_of_span. rewrite Qred_correct.
  assert (Hs : 1 <= inject_Z (Z.of_nat span))
    by (change 1 with (inject_Z 1); rewrite <- Zle_Qle; lia).
  split.
  - apply Qlt_shift_div_l; lra.
  - apply Qle_shift_div_r; lra.
Qed.

(** An exponentially weighted mean is a convex combination: it stays within
    the bounds of what it averages. *)
Lemma ewm_loop_bounds lo hi alpha :
  0 < alpha -> alpha <= 1 ->
  forall vals weighted o,
    0 <= o ->
    (forall c, In (Some c) vals -> lo <= c <= hi) ->
    (forall w, weighted = Some w -> lo <= w <= hi) ->
    forall x, In (Some x) (ewm_loop alpha weighted o vals) -> lo <= x <= hi.
Proof.
  intros Ha0 Ha1. induction vals as [|cur vals IH];
    intros weighted o Ho Hvals Hw x Hx; [elim Hx|].
  cbn [ewm_loop] in Hx.
  assert (Hrest : forall c, In (Some c) vals -> lo <= c <= hi)
    by (intros c Hc; apply Hvals; now right).
  destruct weighted as [w|].
  - specialize (Hw w eq_refl).
    assert (Ho1 : 0 <= Qred (o * (1 - alpha)))
      by (rewrite Qred_correct; apply Qmult_le_0_compat; lra).
    destruct cur as [c|].
    + assert (Hc : lo <= c <= hi) by (apply Hvals; now left).
      set (o1 := Qred (o * (1 - alpha))) in *.
      assert (Hw' : lo <= (if Qeq_bool w c then w
                           else Qred ((o1 * w + alpha * c) / (o1 + alpha)))
                    <= hi).
      { destruct (Qeq_bool w c); [exact Hw|].
        split; rewrite Qred_correct;
          [apply Qle_shift_div_l | apply Qle_shift_div_r]; nra. }
      destruct Hx as [[= <-] | Hx]; [exact Hw'|].
      apply (IH _ 1 ltac:(lra) Hrest) in Hx; [exact Hx|].
      now intros ? [= <-].
    + destruct Hx as [[= <-] | Hx]; [exact Hw|].
      apply (IH _ _ Ho1 Hrest) in Hx; [exact Hx|]. now intros ? [= <-].
  - destruct Hx as [Hx | Hx].
    + subst cur. apply Hvals. now left.
    + apply (IH _ 1 ltac:(lra) Hrest) in Hx; [exact Hx|].
      intros w ->. apply Hvals. now left.
Qed.

Lemma ewm_mean_bounds lo hi span vals :
  (1 <= span)%nat ->
  (forall c, In (Some c) vals -> lo <= c <= hi) ->
  forall x, In (Some x) (ewm_mean span vals) -> lo <= x <= hi.
Proof.
  intros Hs Hvals x Hx. destruct vals as [|v vals]; [elim Hx|].
  cbn [ewm_mean] in Hx. destruct Hx as [Hx | Hx].
  - subst v. apply Hvals. now left.
  - destruct (alpha_of_span_bounds span Hs) as [H0 H1].
    apply (ewm_loop_bounds lo hi _ H0 H1 vals v 1) in Hx; [exact Hx | lra | |].
    + intros c Hc. apply Hvals. now right.
    + intros w ->. apply Hvals. now left.
Qed.

(** The raw stochastic value of a bar whose close lies between its low and
    its high is between 0 and 100. *)
Lemma rsv_cell_bounds close ll hh q :
  ll <= close -> close <= hh ->
  match fdiv (close - ll) (hh - ll + eps) with
  | Some v => Some (Qred (v * 100))
  | None => None
  end = Some q ->
  0 <= q <= 100.
Proof.
  intros H1 H2. unfold fdiv.
  destruct (Qeq_bool (hh - ll + eps) 0); [discriminate|].
  intros [= <-].
  assert (He : 0 < eps) by reflexivity.
  assert (Hd : 0 < hh - ll + eps) by lra.
  assert (Hq : 0 <= (close - ll) / (hh - ll + eps) <= 1).
  { split; [apply Qle_shift_div_l | apply Qle_shift_div_r]; lra. }
  assert (E : Qred (Qred ((close - ll) / (hh - ll + eps)) * 100)
              == (close - ll) / (hh - ll + eps) * 100)
    by (rewrite Qred_correct; rewrite Qred_correct; reflexivity).
  split; rewrite E; lra.
Qed.

Lemma kdj_columns_bounds df period smooth_k smooth_d x :
  Forall (fun b => low b <= close b /\ close b <= high b) df ->
  (1 <= smooth_k)%nat -> (1 <= smooth_d)%nat ->
  In x (calculate_kdj df period smooth_k smooth_d) ->
  (forall k, c_kdj_k x = Some k -> 0 <= k <= 100)
  /\ (forall d, c_kdj_d x = Some d -> 0 <= d <= 100)
  /\ (forall j, c_kdj_j x = Some j -> - (200) <= j <= 300).
Proof.
  intros Hdf Hk Hd Hx. unfold calculate_kdj in Hx.
  set (ll := rolling period Qmin_list (map low df)) in *.
  set (hh := rolling period Qmax_list (map high df)) in *.
  set (rsv := map2 _ (map2 (fop2 Qminus) _ ll) (map2 _ hh ll)) in *.
  assert (Hrsv : forall q, In (Some q) rsv -> 0 <= q <= 100).
  { intros q Hq. apply In_nth_error in Hq. destruct Hq as [i Hi].
    unfold rsv, ll, hh in Hi.
    rewrite !nth_error_map2, !nth_error_rolling, !length_map, nth_error_map in Hi.
    destruct (nth_error df i) as [b|] eqn:Hb; [|discriminate].
    assert (Hlt : (i < length df)%nat)
      by (apply nth_error_Some; rewrite Hb; discriminate).
    apply Nat.ltb_lt in Hlt. rewrite Hlt in Hi.
    cbn [option_map] in Hi.
    destruct ((1 <=? period) && (period <=? i + 1))%nat eqn:Hw;
      [|discriminate].
    apply andb_true_iff in Hw. destruct Hw as [Hw1 Hw2].
    apply Nat.leb_le in Hw1. apply Nat.leb_le in Hw2.
    cbn [fop2 fop1] in Hi. injection Hi as Hi.
    rewrite Forall_forall in Hdf.
    destruct (Hdf b (nth_error_In _ _ Hb)) as [Hlo Hhi].
    eapply rsv_cell_bounds; [| |exact Hi].
    - eapply Qle_trans; [|exact Hlo]. apply Qmin_list_le.
      apply window_at_last; auto.
      rewrite nth_error_map, Hb. reflexivity.
    - eapply Qle_trans; [exact Hhi|]. apply Qmax_list_ge.
      apply window_at_last; auto.
      rewrite nth_error_map, Hb. reflexivity. }
  set (k := ewm_mean smooth_k rsv) in *.
  assert (HK : forall q, In (Some q) k -> 0 <= q <= 100)
    by (apply ewm_mean_bounds; assumption).
  set (d := ewm_mean smooth_d k) in *.
  assert (HD : forall q, In (Some q) d -> 0 <= q <= 100)
    by (apply ewm_mean_bounds; assumption).
  apply In_map2 in Hx. destruct Hx as ([kv dv] & [jv sl] & H1 & H2 & ->).
  simpl.
  pose proof (in_combine_l _ _ _ _ H1) as Hkv.
  pose proof (in_combine_r _ _ _ _ H1) as Hdv.
  apply in_combine_l in H2.
  split; [intros q ->; now apply HK|].
  split; [intros q ->; now apply HD|].
  intros q ->. apply In_map2 in H2. destruct H2 as (a & b & Ha & Hb & E).
  destruct a as [a|], b as [b|]; try discriminate.
  change (Some q = Some (Qred (3 * a - 2 * b))) in E.
  assert (E' : q == 3 * a - 2 * b)
    by (replace q with (Qred (3 * a - 2 * b)) by congruence;
        apply Qred_correct).
  specialize (HK _ Ha). specialize (HD _ Hb).
  split; rewrite E'; lra.
Qed.

End KdjFacts.

(** X8.  On bars whose close lies between their low and their high, with
    smoothing spans of at least 1, every defined K and D of the indicator
    frame lies between 0 and 100, and every defined J between -200 and
    300. *)
Theorem kdj_within_bounds (cfg : StrategyConfig) (df : list Bar) (r : Row) :
  Forall (fun b => low b <= close b /\ close b <= high b) df ->
  (1 <= kdj_smooth_k cfg)%nat -> (1 <= kdj_smooth_d cfg)%nat ->
  In r (add_paferr_features df cfg) ->
  (forall k, c_kdj_k (kdj r) = Some k -> 0 <= k <= 100)
  /\ (forall d, c_kdj_d (kdj r) = Some d -> 0 <= d <= 100)
  /\ (forall j, c_kdj_j (kdj r) = Some j -> - (200) <= j <= 300).
Proof.
  intros Hdf Hk Hd Hr. apply In_nth_error in Hr. destruct Hr as [i Hi].
  apply nth_error_row_ma in Hi. destruct Hi as (_ & _ & Hi).
  apply nth_error_In in Hi.
  exact (kdj_columns_bounds df _ _ _ _ Hdf Hk Hd Hi).
Qed.

Lemma kdj_within_bounds_witness :
  exists r k,
    iloc_last (add_paferr_features sell_bars default_strategy) = Some r
    /\ c_kdj_k (kdj r) = Some k /\ 0 <= k <= 100.
Proof.
  destruct (iloc_last (add_paferr_features sell_bars default_strategy))
    as [r|] eqn:E; [|vm_compute in E; discriminate].
  destruct (c_kdj_k (kdj r)) as [k|] eqn:Ek;
    [|vm_compute in E; injection E as <-; vm_compute in Ek; discriminate].
  exists r, k. split; [reflexivity|]. split; [exact Ek|].
  destruct (kdj_within_bounds default_strategy sell_bars r) as (H & _).
  - apply Forall_forall. intros b Hb.
    assert (Hc : Qle_bool (low b) (close b) && Qle_bool (close b) (high b)
                 = true).
    { revert b Hb. apply forallb_forall. vm_compute. reflexivity. }
    apply andb_true_iff in Hc. now rewrite !Qle_bool_iff in Hc.
  - vm_compute. repeat constructor.
  - vm_compute. repeat constructor.
  - apply iloc_last_In, E.
  - apply H, Ek.
Defined.

(** ** Rounding *)

Section RoundingFacts.

Lemma round_half_even_near x :
  inject_Z (round_half_even x) - (1 # 2) <= x
  /\ x <= inject_Z (round_half_even x) + (1 # 2).
Proof.
  unfold round_half_even.
  pose proof (Qfloor_le x) as Hlo. pose proof (Qlt_floor x) as Hhi.
  rewrite inject_Z_plus in Hhi. change (inject_Z 1) with 1 in Hhi.
  set (f := Qfloor x) in *.
  destruct (Qltb (x - inject_Z f) (1 # 2)) eqn:E1.
  - apply Qltb_lt in E1. split; lra.
  - apply not_true_iff_false in E1. rewrite Qltb_lt in E1.
    apply Qnot_lt_le in E1.
    assert (Hup : inject_Z (f + 1) == inject_Z f + 1)
      by (rewrite inject_Z_plus; reflexivity).
    destruct (Qltb (1 # 2) (x - inject_Z f)) eqn:E2.
    + rewrite Hup. split; lra.
    + apply not_true_iff_false in E2. rewrite Qltb_lt in E2.
      apply Qnot_lt_le in E2.
      destruct (Z.even f); [|rewrite Hup]; split; lra.
Qed.


Lemma pow10_pos n : 0 < inject_Z (10 ^ Z.of_nat n).
Proof.
  change 0 with (inject_Z 0). rewrite <- Zlt_Qlt.
  apply Z.pow_pos_nonneg; lia.
Qed.

(** [round(x, n)] is within half a unit of the [n]-th decimal of [x]. *)
Lemma py_round_near x n :
  Qabs (py_round x n - x) <= (1 # 2) / inject_Z (10 ^ Z.of_nat n).
Proof.
  unfold py_round. rewrite Qred_correct.
  pose proof (pow10_pos n) as Hs. set (s := inject_Z (10 ^ Z.of_nat n)) in *.
  destruct (round_half_even_near (x * s)) as [H1 H2].
  set (z := inject_Z (round_half_even (x * s))) in *.
  apply Qabs_Qle_condition.
  assert (E : z / s - x == (z - x * s) / s) by (field; lra).
  rewrite E. split.
  - apply Qle_shift_div_l; [exact Hs|].
    assert (E2 : - ((1 # 2) / s) * s == - (1 # 2)) by (field; lra).
    rewrite E2. lra.
  - apply Qle_shift_div_r; [exact Hs|].
    assert (E2 : (1 # 2) / s * s == 1 # 2) by (field; lra).
    rewrite E2. lra.
Qed.


End RoundingFacts.

(** ** More on the virtual trade simulator *)

Section SimulatorFacts.

Variable exch : ExchangeConfig.

(** Outside the hold branch the call is its [try] block. *)
Lemma execute_non_hold self signal price slippage ts :
  action signal <> hold ->
  execute_virtual_trade exch self signal price slippage ts
  = match try_body exch signal price slippage ts self with
    | (inr trade, self') => (Executed trade, self')
    | (inl e, self') => (Failed (str e), self')
    end.
Proof.
  intros H. unfold execute_virtual_trade.
  destruct (action signal); [reflexivity | reflexivity | now elim H].
Qed.

Lemma incl_after_bankruptcy_test self p :
  incl (virtual_trades (after_bankruptcy_test self p)) (virtual_trades self).
Proof.
  unfold after_bankruptcy_test. destruct (Qltb _ _); [intros x []|].
  apply incl_refl.
Qed.

(** What a call does to the persistence log and to the buffer. *)
Lemma execute_effects self signal price slippage ts :
  let out := execute_virtual_trade exch self signal price slippage ts in
  match fst out with
  | Executed t =>
      db (snd out) = db self ++ [t]
      /\ exists kept, virtual_trades (snd out) = kept ++ [t]
                      /\ incl kept (virtual_trades self)
  | _ =>
      db (snd out) = db self
      /\ incl (virtual_trades (snd out)) (virtual_trades self)
  end.
Proof.
  cbv zeta.
  destruct (Action_eqb (action signal) hold) eqn:Ha.
  - unfold execute_virtual_trade.
    destruct (action signal); try discriminate. simpl.
    split; [reflexivity | apply incl_refl].
  - rewrite execute_non_hold by (intros E; rewrite E in Ha; discriminate).
    pose proof (try_body_paths exch signal price slippage ts self) as Hb.
    cbv zeta in Hb.
    destruct (fst (simulate_pnl _ _ _ _ self)) as [e|p].
    + rewrite Hb. simpl. split; [reflexivity | apply incl_refl].
    + destruct (reason signal); rewrite Hb; simpl.
      * split; [reflexivity|]. eexists. split; [reflexivity|].
        apply incl_after_bankruptcy_test.
      * split; [|apply incl_after_bankruptcy_test].
        unfold after_bankruptcy_test. now destruct (Qltb _ _).
Qed.



End SimulatorFacts.



(** X10.  The persistence log only grows, by the trade a call returns and
    by nothing else, and a call puts no trade in the buffer that is not in
    the log: if every buffered trade is in the log before the call, the
    same holds after it. *)
Theorem persistence_log_append_only (exch : ExchangeConfig)
  (self : TradeExecutor) (signal : Signal) (price slippage : Q) (ts : Z) :
  let out := execute_virtual_trade exch self signal price slippage ts in
  db (snd out)
  = db self ++ match fst out with Executed t => [t] | _ => [] end
  /\ (incl (virtual_trades self) (db self) ->
      incl (virtual_trades (snd out)) (db (snd out))).
Proof.
  cbv zeta.
  pose proof (execute_effects exch self signal price slippage ts) as H.
  cbv zeta in H.
  destruct (fst (execute_virtual_trade exch self signal price slippage ts))
    as [|t|m].
  - destruct H as [-> H]. rewrite app_nil_r. split; [reflexivity|].
    intros Hin. eapply incl_tran; eassumption.
  - destruct H as [-> (kept & -> & Hk)]. split; [reflexivity|].
    intros Hin. apply incl_app; [|apply incl_appr, incl_refl].
    apply incl_appl. eapply incl_tran; eassumption.
  - destruct H as [-> H]. rewrite app_nil_r. split; [reflexivity|].
    intros Hin. eapply incl_tran; eassumption.
Qed.

(** X11.  A buy or sell dict without its ['stop_loss'] key makes the call
    return the error result with message ['stop_loss'] and leaves the
    simulator untouched. *)
Theorem missing_stop_loss_is_an_error (exch : ExchangeConfig)
  (self : TradeExecutor) (signal : Signal) (price slippage : Q) (ts : Z) :
  action signal <> hold ->
  stop_loss signal = None ->
  execute_virtual_trade exch self signal price slippage ts
  = (Failed "'stop_loss'", self).
Proof.
  intros Ha Hsl. unfold execute_virtual_trade.
  pose proof (try_body_paths exch signal price slippage ts self) as Hb.
  cbv zeta in Hb.
  assert (Hp : forall size fee exec,
             simulate_pnl signal size fee exec self
             = (inl (KeyError "stop_loss"), self)).
  { intros. unfold simulate_pnl, bind, getitem, raise. rewrite Hsl.
    destruct (action signal); reflexivity. }
  rewrite Hp in Hb. simpl in Hb. rewrite Hb.
  destruct (action signal); [reflexivity | reflexivity | now elim Ha].
Qed.

Lemma missing_stop_loss_is_an_error_witness :
  execute_virtual_trade default_exchange new_executor bare_buy
                        100 (1 # 1000) 1704067200
  = (Failed "'stop_loss'", new_executor).
Proof.
  apply missing_stop_loss_is_an_error; [discriminate | reflexivity].
Defined.

(** X12.  The amounts a trade records are within half a unit of their last
    decimal of the amounts computed: the fee within 0.0000005 of
    [size * taker_fee_rate], [balance_after] within 0.00005 of the balance
    the simulator holds after the call. *)
Theorem recorded_amounts_are_close (exch : ExchangeConfig)
  (self self' : TradeExecutor) (signal : Signal) (price slippage : Q)
  (ts : Z) (t : Trade) :
  execute_virtual_trade exch self signal price slippage ts = (Executed t, self') ->
  Qabs (fee t - size_usd_of (virtual_balance self) * fee_rate_taker exch)
  <= 1 # 2000000
  /\ Qabs (balance_after t - virtual_balance self') <= 1 # 20000.
Proof.
  intros H. unfold execute_virtual_trade in H.
  pose proof (try_body_paths exch signal price slippage ts self) as Hb.
  cbv zeta in Hb.
  destruct (fst (simulate_pnl _ _ _ _ self)) as [e|p].
  { rewrite Hb in H. destruct (action signal); discriminate. }
  assert (Hout : exists r,
    (Executed (trade_dict signal r ts
                 (exec_price_of (action signal) price slippage) p
                 (size_usd_of (virtual_balance self) * fee_rate_taker exch)
                 (settled_balance self p)),
     {| db := db self ++ [trade_dict signal r ts
                 (exec_price_of (action signal) price slippage) p
                 (size_usd_of (virtual_balance self) * fee_rate_taker exch)
                 (settled_balance self p)];
        virtual_balance := settled_balance self p;
        virtual_trades := virtual_trades (after_bankruptcy_test self p) ++
              [trade_dict signal r ts
                 (exec_price_of (action signal) price slippage) p
                 (size_usd_of (virtual_balance self) * fee_rate_taker exch)
                 (settled_balance self p)] |})
    = (Executed t, self')).
  { destruct (reason signal) as [r|]; rewrite Hb in H.
    - exists r. destruct (action signal); [exact H | exact H | discriminate].
    - destruct (action signal); discriminate. }
  destruct Hout as [r Hout]. injection Hout as <- <-.
  cbn [trade_dict fee balance_after virtual_balance]. split.
  - eapply Qle_trans; [apply (py_round_near _ 6) | discriminate].
  - eapply Qle_trans; [apply (py_round_near _ 4) | discriminate].
Qed.

Lemma recorded_amounts_are_close_witness :
  exists t self',
    execute_virtual_trade default_exchange after_first_loss stopped_sell
                          100 (1 # 1000) 1704068100 = (Executed t, self')
    /\ Qabs (fee t - size_usd_of (virtual_balance after_first_loss)
                     * fee_rate_taker default_exchange) <= 1 # 2000000
    /\ Qabs (balance_after t - virtual_balance self') <= 1 # 20000.
Proof.
  destruct (execute_virtual_trade default_exchange after_first_loss
              stopped_sell 100 (1 # 1000) 1704068100)
    as [[|t|m] self'] eqn:E; try (vm_compute in E; discriminate).
  exists t, self'. split; [reflexivity|].
  exact (recorded_amounts_are_close _ _ _ _ _ _ _ _ E).
Defined.

(** ** Resampling *)

Section ResampleFacts.

Lemma Forall_insert_by_time (P : Bar -> Prop) b l :
  P b -> Forall P l -> Forall P (insert_by_time b l).
Proof.
  intros Hb. induction 1 as [|c l Hc Hl IH]; simpl.
  - repeat constructor. exact Hb.
  - destruct (timestamp b <=? timestamp c)%Z; repeat constructor; auto.
Qed.

Lemma Forall_sort_by_time (P : Bar -> Prop) df :
  Forall P df -> Forall P (sort_by_time df).
Proof.
  induction 1 as [|b l Hb Hl IH]; simpl; [constructor|].
  now apply Forall_insert_by_time.
Qed.

Lemma volume_insert_by_time b l :
  Qsum (map volume (insert_by_time b l)) == volume b + Qsum (map volume l).
Proof.
  induction l as [|c l IH]; simpl; [reflexivity|].
  destruct (timestamp b <=? timestamp c)%Z; simpl; [reflexivity|].
  fold (Qsum (map volume (insert_by_time b l))). rewrite IH.
  fold (Qsum (map volume l)). ring.
Qed.

Lemma volume_sort_by_time df :
  Qsum (map volume (sort_by_time df)) == Qsum (map volume df).
Proof.
  induction df as [|b l IH]; simpl; [reflexivity|].
  rewrite volume_insert_by_time. fold (Qsum (map volume l)).
  now rewrite IH.
Qed.

Lemma resample_loop_well_formed w rest : forall cur,
  well_formed_bar cur -> Forall well_formed_bar rest ->
  Forall well_formed_bar (resample_loop w cur rest).
Proof.
  induction rest as [|b rest IH]; intros cur Hc Hr; simpl.
  - constructor; [exact Hc | constructor].
  - inversion Hr as [|? ? Hb Hrest]; subst.
    destruct (bin_of w (timestamp b) =? timestamp cur)%Z.
    + apply IH; [|exact Hrest].
      destruct Hc as (c1 & c2 & c3 & c4 & c5).
      destruct Hb as (b1 & b2 & b3 & b4 & b5).
      unfold well_formed_bar; simpl.
      pose proof (Q.le_min_l (low cur) (low b)).
      pose proof (Q.le_min_r (low cur) (low b)).
      pose proof (Q.le_max_l (high cur) (high b)).
      pose proof (Q.le_max_r (high cur) (high b)).
      repeat split; try lra.
      apply Q.min_glb; assumption.
    + constructor; [exact Hc|]. apply IH; [|exact Hrest].
      exact Hb.
Qed.

Lemma resample_loop_volume w rest : forall cur,
  Qsum (map volume (resample_loop w cur rest))
  == volume cur + Qsum (map volume rest).
Proof.
  induction rest as [|b rest IH]; intros cur.
  - reflexivity.
  - cbn [resample_loop].
    assert (E : Qsum (map volume (b :: rest))
                == volume b + Qsum (map volume rest)) by reflexivity.
    rewrite E.
    destruct (bin_of w (timestamp b) =? timestamp cur)%Z.
    + rewrite IH. cbn [volume]. rewrite Qred_correct. ring.
    + change (Qsum (map volume (cur :: ?l)))
        with (volume cur + Qsum (map volume l)).
      rewrite IH. cbn [volume]. reflexivity.
Qed.

End ResampleFacts.

(** X13.  Aggregating well-formed bars gives well-formed bars: every bar
    that [resample] returns has 0 <= low <= open <= high and
    low <= close <= high when the bars it was given have. *)
Theorem resample_keeps_bars_well_formed (w : Z) (df : list Bar) :
  Forall well_formed_bar df -> Forall well_formed_bar (resample w df).
Proof.
  intros H. apply Forall_sort_by_time in H. unfold resample.
  destruct (sort_by_time df) as [|b rest]; [constructor|].
  inversion H as [|? ? Hb Hrest]; subst.
  apply resample_loop_well_formed; [exact Hb | exact Hrest].
Qed.

Lemma resample_keeps_bars_well_formed_witness :
  Forall well_formed_bar (resample (30 * 60) sell_bars).
Proof.
  apply resample_keeps_bars_well_formed.
  apply well_formed_barb_sound. vm_compute. reflexivity.
Defined.

(** X14.  Aggregation conserves the traded volume: the volumes of the bars
    that [resample] returns add up to the volumes of the bars it was
    given, whatever the bin width and the order of the rows. *)
Theorem resample_conserves_volume (w : Z) (df : list Bar) :
  Qsum (map volume (resample w df)) == Qsum (map volume df).
Proof.
  rewrite <- (volume_sort_by_time df). unfold resample.
  destruct (sort_by_time df) as [|b rest]; [reflexivity|].
  rewrite resample_loop_volume. simpl. reflexivity.
Qed.

(** ** The replay of the optimizer *)

Section ReplayFacts.

Variable risk : RiskConfig.
Variable exch : ExchangeConfig.
Variable slippage : nat -> Q.
Variable df_sim : list Bar.




End ReplayFacts.



(** ** A stale cooldown *)

Section StaleCooldown.

Variable risk : RiskConfig.
Variable exch : ExchangeConfig.
Variable slippage : nat -> Q.
Variable df_sim : list Bar.


End StaleCooldown.



(** ** The best score *)

Section BestScore.

Local Open Scope R_scope.

Lemma best_le_refl a : best_le a a.
Proof. destruct a; simpl; [apply Rle_refl | exact I]. Qed.

End BestScore.

(** X18.  [best_score] is a running maximum: a call of the objective never
    lowers it, and after a call that computed a score (a score other than
    the sentinel -1) it is at least that score. *)
Theorem best_score_never_decreases (self : AutoOptimizer)
  (trades : list Trade) :
  best_le (best_score self) (best_score (snd (score_trades self trades)))
  /\ (fst (score_trades self trades) <> (-1)%R ->
      best_le (Some (fst (score_trades self trades)))
              (best_score (snd (score_trades self trades)))).
Proof.
  unfold score_trades.
  destruct (length trades <? 5)%nat.
  { simpl. split; [apply best_le_refl | intros H; now elim H]. }
  destruct ((length (map (fun p => (p / 100)%R)
                         (map (fun t => Q2R (net_pnl t)) trades)) =? 0)%nat
            || Reqb _ 0).
  { simpl. split; [apply best_le_refl | intros H; now elim H]. }
  cbv zeta. cbn [fst snd].
  set (score := (7 / 10 * _ + 3 / 10 * _)%R).
  unfold exceeds, Rgtb. destruct (best_score self) as [b|] eqn:Hb.
  - destruct (Rlt_dec b score) as [Hlt | Hge]; cbn [best_score best_le].
    + split; [Lra.lra | intros _; apply Rle_refl].
    + rewrite Hb. cbn [best_le]. split; [apply Rle_refl | intros _; Lra.lra].
  - cbn [best_score best_le]. split; [exact I | intros _; apply Rle_refl].
Qed.

(** ** The maximum drawdown *)

Section DrawdownFacts.

Lemma drop_mono a p b :
  0 < a -> a <= p -> 0 < b -> (a - b) / a <= (p - b) / p.
Proof.
  intros Ha Hp Hb. apply Qle_shift_div_r; [exact Ha|].
  assert (E : (p - b) / p * a == (p - b) * a / p) by (field; lra).
  rewrite E. apply Qle_shift_div_l; [lra | nra].
Qed.

Lemma drop_bounds p v : 0 < v -> v <= p -> 0 <= (p - v) / p /\ (p - v) / p < 1.
Proof.
  intros Hv Hp. split.
  - apply Qle_shift_div_l; lra.
  - apply Qlt_shift_div_r; lra.
Qed.

(** The loop, from any state it can be in: the result is at least the
    running maximum, dominates the drop from the running peak and from any
    value to any later value, and is one of these. *)
Lemma drawdown_loop_spec values : forall peak m,
  0 < peak -> 0 <= m -> m < 1 ->
  Forall (fun v => 0 < v) values ->
  exists dd, drawdown_loop peak m values = inr dd
    /\ m <= dd /\ dd < 1
    /\ (forall j b, nth_error values j = Some b -> (peak - b) / peak <= dd)
    /\ (forall i j a b, (i <= j)%nat -> nth_error values i = Some a ->
          nth_error values j = Some b -> (a - b) / a <= dd)
    /\ (dd = m
        \/ (exists j b, nth_error values j = Some b /\ dd = (peak - b) / peak)
        \/ (exists i j a b, (i <= j)%nat /\ nth_error values i = Some a
              /\ nth_error values j = Some b /\ dd = (a - b) / a)).
Proof.
  induction values as [|v rest IH]; intros peak m Hp Hm0 Hm1 Hpos.
  - exists m. split; [reflexivity|]. split; [apply Qle_refl|].
    split; [exact Hm1|].
    split; [intros [|j] b; discriminate|].
    split; [intros [|i] j a b _; discriminate|]. now left.
  - inversion Hpos as [|? ? Hv Hrest]; subst. cbn [drawdown_loop].
    set (peak' := if Qgtb v peak then v else peak).
    assert (Hpk : 0 < peak' /\ peak <= peak' /\ v <= peak'
                  /\ (peak' = v \/ peak' = peak)).
    { unfold peak'. destruct (Qgtb v peak) eqn:E.
      - apply Qgtb_gt in E. repeat split; try lra. now left.
      - apply not_true_iff_false in E. rewrite Qgtb_gt in E.
        apply Qnot_lt_le in E. repeat split; try lra. now right. }
    destruct Hpk as (Hp' & Hle & Hvle & Hcase).
    assert (Hz : Qeq_bool peak' 0 = false).
    { apply not_true_iff_false. rewrite Qeq_bool_iff. lra. }
    rewrite Hz.
    destruct (drop_bounds peak' v Hv Hvle) as [Hd0 Hd1].
    set (dd0 := (peak' - v) / peak') in *.
    set (m' := if Qgtb dd0 m then dd0 else m).
    assert (Hm' : 0 <= m' /\ m' < 1 /\ m <= m' /\ dd0 <= m'
                  /\ (m' = dd0 \/ m' = m)).
    { unfold m'. destruct (Qgtb dd0 m) eqn:E.
      - apply Qgtb_gt in E. repeat split; try lra. now left.
      - apply not_true_iff_false in E. rewrite Qgtb_gt in E.
        apply Qnot_lt_le in E. repeat split; try lra. now right. }
    destruct Hm' as (Hm'0 & Hm'1 & Hmm' & Hdm' & Hcase').
    destruct (IH peak' m' Hp' Hm'0 Hm'1 Hrest)
      as (dd & -> & Hdd & Hdd1 & Hpeak & Hpairs & Hatt).
    exists dd. split; [reflexivity|]. split; [lra|]. split; [exact Hdd1|].
    assert (Hfirst : (peak - v) / peak <= dd).
    { eapply Qle_trans; [apply (drop_mono peak peak' v); assumption|].
      fold dd0. lra. }
    split; [|split].
    + intros [|j] b Hb; cbn [nth_error] in Hb.
      * injection Hb as <-. exact Hfirst.
      * assert (Hb0 : 0 < b).
        { rewrite Forall_forall in Hrest. apply Hrest.
          eapply nth_error_In, Hb. }
        eapply Qle_trans; [apply (drop_mono peak peak' b); assumption|].
        now apply (Hpeak j).
    + intros [|i] [|j] a b Hij Ha Hb; cbn [nth_error] in Ha, Hb.
      * injection Ha as <-. injection Hb as <-.
        assert (E : (v - v) / v == 0) by (field; lra). rewrite E. lra.
      * injection Ha as <-.
        assert (Hb0 : 0 < b).
        { rewrite Forall_forall in Hrest. apply Hrest.
          eapply nth_error_In, Hb. }
        eapply Qle_trans; [apply (drop_mono v peak' b); assumption|].
        now apply (Hpeak j).
      * lia.
      * apply (Hpairs i j); [lia | assumption | assumption].
    + destruct Hatt as [-> | [(j & b & Hb & ->) | (i & j & a & b & Hij & Ha & Hb & ->)]].
      * destruct Hcase' as [-> | ->]; [|now left].
        unfold dd0. destruct Hcase as [-> | ->].
        -- right; right. exists 0%nat, 0%nat, v, v. auto.
        -- right; left. exists 0%nat, v. auto.
      * destruct Hcase as [-> | ->].
        -- right; right. exists 0%nat, (S j), v, b.
           repeat split; [lia | assumption].
        -- right; left. exists (S j), b. auto.
      * right; right. exists (S i), (S j), a, b.
        repeat split; [lia | assumption | assumption].
Qed.

Lemma max_drawdown_spec curve :
  curve <> [] -> Forall (fun v => 0 < v) curve ->
  exists dd, _calculate_max_drawdown curve = inr dd
    /\ 0 <= dd /\ dd < 1
    /\ (forall i j a b, (i <= j)%nat -> nth_error curve i = Some a ->
          nth_error curve j = Some b -> (a - b) / a <= dd)
    /\ (exists i j a b, (i <= j)%nat /\ nth_error curve i = Some a
          /\ nth_error curve j = Some b /\ dd == (a - b) / a).
Proof.
  intros Hne Hpos. destruct curve as [|first rest]; [now elim Hne|].
  unfold _calculate_max_drawdown.
  assert (Hf : 0 < first) by (inversion Hpos; assumption).
  destruct (drawdown_loop_spec (first :: rest) first 0 Hf
              (Qle_refl 0) ltac:(reflexivity) Hpos)
    as (dd & -> & Hdd & Hdd1 & Hpeak & Hpairs & Hatt).
  exists dd. split; [reflexivity|]. split; [exact Hdd|].
  split; [exact Hdd1|]. split; [exact Hpairs|].
  destruct Hatt as [-> | [(j & b & Hb & ->) | (i & j & a & b & Hij & Ha & Hb & ->)]].
  - exists 0%nat, 0%nat, first, first.
    split; [lia|]. split; [reflexivity|]. split; [reflexivity|].
    field. lra.
  - exists 0%nat, j, first, b.
    split; [lia|]. split; [reflexivity|]. split; [assumption|]. reflexivity.
  - exists i, j, a, b.
    split; [assumption|]. split; [assumption|]. split; [assumption|].
    reflexivity.
Qed.

End DrawdownFacts.

(** X19.  On a non-empty equity curve of positive values the maximum
    drawdown is the largest relative drop from a value to a later one: it
    lies in [0, 1), no drop [(a - b) / a] from a value [a] to a later value
    [b] exceeds it, and it is one of these drops. *)
Theorem max_drawdown_is_largest_drop (curve : list Q) :
  curve <> [] -> Forall (fun v => 0 < v) curve ->
  exists dd, _calculate_max_drawdown curve = inr dd
    /\ 0 <= dd /\ dd < 1
    /\ (forall i j a b, (i <= j)%nat -> nth_error curve i = Some a ->
          nth_error curve j = Some b -> (a - b) / a <= dd)
    /\ (exists i j a b, (i <= j)%nat /\ nth_error curve i = Some a
          /\ nth_error curve j = Some b /\ dd == (a - b) / a).
Proof. exact (max_drawdown_spec curve). Qed.

Lemma max_drawdown_is_largest_drop_witness :
  exists dd, _calculate_max_drawdown dipping_curve = inr dd
    /\ 0 <= dd /\ dd < 1
    /\ (forall i j a b, (i <= j)%nat -> nth_error dipping_curve i = Some a ->
          nth_error dipping_curve j = Some b -> (a - b) / a <= dd)
    /\ (exists i j a b, (i <= j)%nat /\ nth_error dipping_curve i = Some a
          /\ nth_error dipping_curve j = Some b /\ dd == (a - b) / a).
Proof.
  apply max_drawdown_is_largest_drop; [discriminate|].
  repeat constructor.
Defined.

(** X20.  An equity curve of positive values that never falls has no
    drawdown. *)
Theorem rising_curve_has_no_drawdown (curve : list Q) :
  curve <> [] -> Forall (fun v => 0 < v) curve ->
  (forall i j a b, (i <= j)%nat -> nth_error curve i = Some a ->
     nth_error curve j = Some b -> a <= b) ->
  exists dd, _calculate_max_drawdown curve = inr dd /\ dd == 0.
Proof.
  intros Hne Hpos Hup.
  destruct (max_drawdown_spec curve Hne Hpos)
    as (dd & E & Hdd & _ & _ & (i & j & a & b & Hij & Ha & Hb & Hatt)).
  exists dd. split; [exact E|].
  assert (Ha0 : 0 < a).
  { rewrite Forall_forall in Hpos. apply Hpos. eapply nth_error_In, Ha. }
  assert (Hab : a <= b) by (apply (Hup i j); assumption).
  assert (Hle : (a - b) / a <= 0) by (apply Qle_shift_div_r; lra).
  lra.
Qed.

Lemma rising_curve_has_no_drawdown_witness :
  exists dd, _calculate_max_drawdown [100; 100; 103; 110] = inr dd /\ dd == 0.
Proof.
  apply rising_curve_has_no_drawdown; [discriminate | repeat constructor |].
  intros i j a b Hij Ha Hb.
  destruct i as [|[|[|[|i]]]], j as [|[|[|[|j]]]]; cbn [nth_error] in Ha, Hb;
    try lia; try (destruct i; discriminate); try (destruct j; discriminate);
    injection Ha as <-; injection Hb as <-; discriminate.
Defined.

(** ** utils/helpers.py *)

Section HelperFacts.

Import PrimFloat SpecFloat.

Lemma digits2_pos_bounds m :
  (2 ^ (Z.pos (digits2_pos m) - 1) <= Z.pos m < 2 ^ Z.pos (digits2_pos m))%Z.
Proof.
  induction m as [m IH|m IH|]; cbn [digits2_pos].
  - rewrite Pos2Z.inj_succ.
    replace (Z.succ (Z.pos (digits2_pos m)) - 1)%Z
      with (Z.succ (Z.pos (digits2_pos m) - 1)) by lia.
    rewrite !Z.pow_succ_r by lia. lia.
  - rewrite Pos2Z.inj_succ.
    replace (Z.succ (Z.pos (digits2_pos m)) - 1)%Z
      with (Z.succ (Z.pos (digits2_pos m) - 1)) by lia.
    rewrite !Z.pow_succ_r by lia. lia.
  - simpl. lia.
Qed.

(** A binary64 value above the subnormal range has a mantissa of exactly 53
    bits. *)
Lemma normal_mantissa m e :
  bounded 53 1024 m e = true -> (-1074 < e)%Z ->
  (2 ^ 52 <= Z.pos m < 2 ^ 53)%Z.
Proof.
  unfold bounded, canonical_mantissa, fexp, emin. intros H He.
  apply andb_true_iff in H. destruct H as [H _]. apply Z.eqb_eq in H.
  assert (Hd : Z.pos (digits2_pos m) = 53%Z) by lia.
  pose proof (digits2_pos_bounds m) as Hb. rewrite Hd in Hb. exact Hb.
Qed.

Lemma truncated_quotient lo hi m k :
  (0 < k)%Z -> (lo * k <= Z.pos m)%Z -> (Z.pos m <= hi * k)%Z ->
  (lo <= Z.pos m / k <= hi)%Z.
Proof.
  intros Hk Hlo Hhi. split.
  - apply Z.div_le_lower_bound; lia.
  - apply Z.div_le_upper_bound; lia.
Qed.

Lemma SFltb_finite_pos m1 e1 m2 e2 :
  SFltb (S754_finite false m1 e1) (S754_finite false m2 e2) = true ->
  (e1 < e2)%Z \/ (e1 = e2 /\ (Z.pos m1 < Z.pos m2)%Z).
Proof.
  unfold SFltb, SFcompare.
  destruct (Z.compare_spec e1 e2) as [E|E|E]; try discriminate.
  - rewrite Pos.compare_cont_spec. cbn [Pos.switch_Eq].
    destruct (Pos.compare_spec m1 m2) as [|Hm|]; try discriminate.
    intros _. right. split; [exact E | lia].
  - intros _. now left.
Qed.

(** A float strictly between 20 and 50 is finite, and truncates to an
    integer from 20 to 49. *)
Lemma int_of_float_between x :
  ltb 20 x = true -> ltb x 50 = true ->
  exists v, int_of_float x = inr v /\ (20 <= v <= 50)%Z.
Proof.
  rewrite !FloatAxioms.ltb_spec. intros H20 H50.
  pose proof (FloatAxioms.Prim2SF_valid x) as Hv.
  unfold int_of_float.
  change (FloatOps.Prim2SF 20)
    with (S754_finite false 5629499534213120 (-48)) in H20.
  change (FloatOps.Prim2SF 50)
    with (S754_finite false 7036874417766400 (-47)) in H50.
  destruct (FloatOps.Prim2SF x) as [s|s| |s m e].
  - destruct s; discriminate H20.
  - destruct s; [discriminate H20 | discriminate H50].
  - discriminate H20.
  - destruct s; [discriminate H20|].
    apply SFltb_finite_pos in H20. apply SFltb_finite_pos in H50.
    unfold valid_binary in Hv. change FloatOps.prec with 53%Z in Hv.
    change FloatOps.emax with 1024%Z in Hv.
    pose proof (normal_mantissa m e Hv ltac:(lia)) as Hn.
    change (2 ^ 52)%Z with 4503599627370496%Z in Hn.
    change (2 ^ 53)%Z with 9007199254740992%Z in Hn.
    assert (He : e = (-48)%Z \/ e = (-47)%Z) by lia.
    destruct He as [-> | ->].
    + eexists. split; [reflexivity|].
      change (0 <=? -48)%Z with false. cbv iota.
      change (2 ^ (- -48))%Z with 281474976710656%Z.
      apply truncated_quotient; lia.
    + eexists. split; [reflexivity|].
      change (0 <=? -47)%Z with false. cbv iota.
      change (2 ^ (- -47))%Z with 140737488355328%Z.
      apply truncated_quotient; lia.
Qed.

Lemma clamped_leverage q :
  exists lev, py_int (py_min_50 (py_max_20 q)) = inr lev
              /\ (20 <= lev <= 50)%Z.
Proof.
  unfold py_max_20. destruct (ltb 20 q) eqn:H20.
  - unfold py_min_50. destruct (ltb q 50) eqn:H50.
    + exact (int_of_float_between q H20 H50).
    + exists 50%Z. split; [reflexivity | lia].
  - exists 20%Z. split; [reflexivity | lia].
Qed.

(** On the defaults with a stop 4.2 dollars away the quotient is
    35.71...; a stop distance that underflows the ratio raises. *)
Example leverage_samples :
  get_leverage_for_risk 100 5 3000 0x1.0cccccccccccdp+2 = inr 35%Z
  /\ get_leverage_for_risk 100 5 3000 0x1p-1074 = inl FloatDivisionByZero
  /\ get_leverage_for_risk 100 5 3000 nan = inr 20%Z.
Proof. repeat split; vm_compute; reflexivity. Qed.

End HelperFacts.

(** X21.  For all binary64 arguments, NaN and the infinities included,
    [get_leverage_for_risk] returns a leverage between 20 and 50 or raises
    [ZeroDivisionError]: [int()] never meets a NaN or an infinity. *)
Theorem leverage_for_risk_in_range
  (balance_usd risk_pct price sl_distance_usd : PrimFloat.float) :
  match get_leverage_for_risk balance_usd risk_pct price sl_distance_usd with
  | inr lev => (20 <= lev <= 50)%Z
  | inl e => e = FloatDivisionByZero
  end.
Proof.
  unfold get_leverage_for_risk.
  destruct (PrimFloat.leb sl_distance_usd _); [lia|].
  unfold py_div.
  destruct (PrimFloat.eqb price _); [reflexivity|].
  destruct (PrimFloat.eqb _ _); [reflexivity|].
  destruct (PrimFloat.eqb balance_usd _); [reflexivity|].
  match goal with
  | |- context [py_int (py_min_50 (py_max_20 ?q))] =>
      destruct (clamped_leverage q) as (lev & -> & H)
  end.
  exact H.
Qed.

(** ** The risk check and the live order *)

Section LiveFacts.

Variable risk : RiskConfig.

Lemma Qgtb_false x y : Qgtb x y = false <-> x <= y.
Proof.
  unfold Qgtb, Qltb. rewrite negb_false_iff. apply Qle_bool_iff.
Qed.

End LiveFacts.

(** X23.  No order reaches the exchange unless live trading is switched on
    and the risk check passed: an order among the requests of a call has
    the side of the signal, an amount of [size / price] for the size
    min(50, 0.8 x balance), and that size passed
    [check_risk_before_trade] against the signal's stop, so it is at most
    [max_position_size_usd]. *)
Theorem live_order_only_after_risk_check (risk : RiskConfig)
  (self : LiveExecutor) (signal : Signal) (price : Q)
  (side : Action) (amount : Q) :
  In (CreateOrder side amount) (snd (execute_live_trade risk self signal price)) ->
  let size_usd := Qmin 50 (get_account_balance self * (8 # 10)) in
  is_live self = true
  /\ side = action signal
  /\ amount = size_usd / price
  /\ (exists sl, stop_loss signal = Some sl
        /\ check_risk_before_trade risk (action signal) size_usd price sl
           = inr true)
  /\ size_usd <= max_position_size_usd risk.
Proof.
  cbv zeta. unfold execute_live_trade.
  destruct (client self) as [ex|]; [|intros []].
  destruct (is_live self) eqn:Hl; [|intros []]. cbn [negb].
  set (size_usd := Qmin 50 (get_account_balance self * (8 # 10))).
  destruct (stop_loss signal) as [sl|]; [|intros []].
  destruct (check_risk_before_trade risk (action signal) size_usd price sl)
    as [e|[|]] eqn:Hc; [intros [] | | intros []].
  assert (Hsize : size_usd <= max_position_size_usd risk).
  { unfold check_risk_before_trade in Hc.
    destruct (Qeq_bool price 0); [discriminate|].
    destruct (Qeq_bool size_usd 0); [discriminate|].
    destruct (fcmp Qgtb _ _); [discriminate|].
    destruct (Qgtb size_usd (max_position_size_usd risk)) eqn:G;
      [discriminate|].
    now apply Qgtb_false in G. }
  destruct (leverage signal) as [lev|]; [|intros []].
  intros H.
  assert (Hreq : In (CreateOrder side amount)
                    [SetLeverage lev;
                     CreateOrder (action signal) (size_usd / price)])
    by (destruct (create_order ex (action signal) (size_usd / price));
        exact H).
  destruct Hreq as [Hreq | [Hreq | []]]; [discriminate|].
  injection Hreq as <- <-.
  split; [reflexivity|]. split; [reflexivity|]. split; [reflexivity|].
  split; [exists sl; split; [reflexivity | exact Hc] | exact Hsize].
Qed.

Lemma live_order_only_after_risk_check_witness :
  let size_usd := Qmin 50 (get_account_balance live_executor * (8 # 10)) in
  is_live live_executor = true
  /\ sell = action tight_sell
  /\ Qmin 50 (1000 * (8 # 10)) / 3000 = size_usd / 3000
  /\ (exists sl, stop_loss tight_sell = Some sl
        /\ check_risk_before_trade default_risk (action tight_sell) size_usd
             3000 sl = inr true)
  /\ size_usd <= max_position_size_usd default_risk.
Proof.
  apply (live_order_only_after_risk_check default_risk live_executor
           tight_sell 3000 sell (Qmin 50 (1000 * (8 # 10)) / 3000)).
  vm_compute. right. left. reflexivity.
Defined.

(** ** The trades table *)

Section TradesFacts.

Lemma find_trade_In tbl id t :
  find_trade tbl id = Some t ->
  exists i, In (i, t) (trade_rows tbl) /\ trade_id t = id.
Proof.
  unfold find_trade. intros H.
  destruct (find _ (trade_rows tbl)) as [[i u]|] eqn:E; [|discriminate].
  injection H as ->. apply find_some in E. destruct E as [Hin He].
  exists i. split; [exact Hin|]. now apply String.eqb_eq.
Qed.

Lemma filter_other_ids (rows : list (Z * Trade)) id :
  ~ In id (map (fun r => trade_id (snd r))
               (filter (fun r => negb (String.eqb (trade_id (snd r)) id)) rows)).
Proof.
  intros H. apply in_map_iff in H. destruct H as (r & E & Hr).
  apply filter_In in Hr. destruct Hr as [_ Hr].
  apply negb_true_iff, String.eqb_neq in Hr. contradiction.
Qed.

Lemma NoDup_map_filter {A B} (f : A -> B) (p : A -> bool) l :
  NoDup (map f l) -> NoDup (map f (filter p l)).
Proof.
  induction l as [|a l IH]; simpl; [auto|]. intros H.
  inversion H as [|? ? Hn Hd]; subst. destruct (p a); simpl; [|auto].
  constructor; [|auto]. intros Hin. apply Hn.
  apply in_map_iff in Hin. destruct Hin as (x & E & Hx).
  apply filter_In in Hx. apply in_map_iff. exists x. tauto.
Qed.

Lemma NoDup_snoc {A} (l : list A) x :
  NoDup l -> ~ In x l -> NoDup (l ++ [x]).
Proof.
  induction l as [|a l IH]; simpl; intros Hd Hn.
  - constructor; [intros [] | constructor].
  - inversion Hd as [|? ? Ha Hl]; subst. constructor.
    + intros Hin. apply in_app_or in Hin. destruct Hin as [Hin | [-> | []]];
        [contradiction | apply Hn; now left].
    + apply IH; [exact Hl | intros Hin; apply Hn; now right].
Qed.

Lemma find_app_none {A} (p : A -> bool) l m :
  find p l = None -> find p (l ++ m) = find p m.
Proof.
  induction l as [|a l IH]; simpl; [auto|].
  destruct (p a); [discriminate | exact IH].
Qed.

Lemma find_app_some {A} (p : A -> bool) l m x :
  find p l = Some x -> find p (l ++ m) = Some x.
Proof.
  induction l as [|a l IH]; simpl; [discriminate|].
  destruct (p a); [auto | exact IH].
Qed.

Lemma find_filter_other {A} (p q : A -> bool) l :
  (forall x, p x = true -> q x = true) ->
  find p (filter q l) = find p l.
Proof.
  intros H. induction l as [|a l IH]; simpl; [reflexivity|].
  destruct (q a) eqn:Eq; simpl.
  - destruct (p a); [reflexivity | exact IH].
  - destruct (p a) eqn:Ep; [|exact IH].
    apply H in Ep. congruence.
Qed.

Lemma save_trade_found tbl record :
  find_trade (save_trade tbl record) (trade_id record) = Some record.
Proof.
  unfold find_trade, save_trade. cbn [trade_rows].
  rewrite find_app_none.
  - simpl. now rewrite String.eqb_refl.
  - destruct (find _ (filter _ (trade_rows tbl))) as [r|] eqn:E;
      [|reflexivity].
    apply find_some in E. destruct E as [Hin He].
    apply filter_In in Hin. destruct Hin as [_ Hn].
    rewrite He in Hn. discriminate.
Qed.

Lemma save_trade_other tbl record id :
  id <> trade_id record ->
  find_trade (save_trade tbl record) id = find_trade tbl id.
Proof.
  unfold find_trade, save_trade. cbn [trade_rows]. intros Hid.
  assert (Hf : find (fun r => String.eqb (trade_id (snd r)) id)
                 (filter (fun r => negb (String.eqb (trade_id (snd r))
                                                    (trade_id record)))
                         (trade_rows tbl))
               = find (fun r => String.eqb (trade_id (snd r)) id)
                      (trade_rows tbl)).
  { apply find_filter_other. intros r Hr. apply String.eqb_eq in Hr.
    apply negb_true_iff, String.eqb_neq. congruence. }
  destruct (find (fun r => String.eqb (trade_id (snd r)) id)
              (trade_rows tbl)) as [r|] eqn:E.
  - now rewrite (find_app_some _ _ _ _ Hf).
  - rewrite (find_app_none _ _ _ Hf). simpl.
    destruct (String.eqb_spec (trade_id record) id) as [Heq|_];
      [congruence | reflexivity].
Qed.

Lemma save_trade_NoDup tbl record :
  NoDup (trade_ids tbl) -> NoDup (trade_ids (save_trade tbl record)).
Proof.
  unfold save_trade, trade_ids. cbn [trade_rows].
  intros Hnd. rewrite map_app. simpl.
  apply NoDup_snoc; [now apply NoDup_map_filter | apply filter_other_ids].
Qed.

End TradesFacts.

(** X24.  [save_trade] is an upsert on [trade_id]: after the call the table
    holds the record under its [trade_id], holds under every other
    [trade_id] what it held before, and, when no two rows shared a
    [trade_id] before, no two rows share one after. *)
Theorem save_trade_upsert (tbl : TradesTable) (record : Trade) :
  find_trade (save_trade tbl record) (trade_id record) = Some record
  /\ (forall id, id <> trade_id record ->
        find_trade (save_trade tbl record) id = find_trade tbl id)
  /\ (NoDup (trade_ids tbl) -> NoDup (trade_ids (save_trade tbl record))).
Proof.
  split; [apply save_trade_found|].
  split; [intros id; apply save_trade_other | apply save_trade_NoDup].
Qed.

(** X25.  Trades are keyed by the second of their bar: two trades the
    simulator executes at the same timestamp carry the same [trade_id], so
    saving the second removes the first from the table, which then holds
    the second under that [trade_id] and one row less than two inserts
    would give. *)
Theorem same_timestamp_trades_collide (exch : ExchangeConfig)
  (self1 self2 self1' self2' : TradeExecutor) (signal1 signal2 : Signal)
  (price1 price2 slippage1 slippage2 : Q) (ts : Z) (t1 t2 : Trade)
  (tbl : TradesTable) :
  execute_virtual_trade exch self1 signal1 price1 slippage1 ts
  = (Executed t1, self1') ->
  execute_virtual_trade exch self2 signal2 price2 slippage2 ts
  = (Executed t2, self2') ->
  trade_id t1 = trade_id t2
  /\ find_trade (save_trade (save_trade tbl t1) t2) (trade_id t1) = Some t2
  /\ (length (trade_rows (save_trade (save_trade tbl t1) t2))
      <= length (trade_rows tbl) + 1)%nat.
Proof.
  assert (Hid : forall self signal price slippage t self',
    execute_virtual_trade exch self signal price slippage ts
    = (Executed t, self') ->
    trade_id t = ("VIRT_" ++ string_of_Z ts)%string).
  { intros self signal price slippage t self' H.
    unfold execute_virtual_trade in H.
    pose proof (try_body_paths exch signal price slippage ts self) as Hb.
    cbv zeta in Hb.
    destruct (fst (simulate_pnl _ _ _ _ self)) as [e|p].
    - rewrite Hb in H. destruct (action signal); discriminate.
    - destruct (reason signal) as [r|]; rewrite Hb in H;
        destruct (action signal); try discriminate;
        injection H as <- _; reflexivity. }
  intros H1 H2. apply Hid in H1. apply Hid in H2.
  assert (E : trade_id t1 = trade_id t2) by congruence.
  split; [exact E|]. split.
  - rewrite E. apply save_trade_found.
  - unfold save_trade. cbn [trade_rows].
    rewrite !length_app, filter_app. cbn [length].
    rewrite length_app. cbn [filter snd]. rewrite E, String.eqb_refl.
    cbn [negb length].
    pose proof (filter_length_le
      (fun r => negb (String.eqb (trade_id (snd r)) (trade_id t2)))
      (filter (fun r => negb (String.eqb (trade_id (snd r)) (trade_id t2)))
              (trade_rows tbl))).
    pose proof (filter_length_le
      (fun r => negb (String.eqb (trade_id (snd r)) (trade_id t2)))
      (trade_rows tbl)).
    lia.
Qed.

Lemma same_timestamp_trades_collide_witness :
  exists t1 t2 self1' self2',
    execute_virtual_trade default_exchange new_executor stopped_sell
                          100 (1 # 1000) 1704068100 = (Executed t1, self1')
    /\ execute_virtual_trade default_exchange after_first_loss stopped_sell
                             100 (1 # 1000) 1704068100 = (Executed t2, self2')
    /\ trade_id t1 = trade_id t2
    /\ find_trade (save_trade (save_trade empty_trades t1) t2) (trade_id t1)
       = Some t2.
Proof.
  destruct (execute_virtual_trade default_exchange new_executor stopped_sell
              100 (1 # 1000) 1704068100)
    as [[|t1|m1] self1'] eqn:E1; try (vm_compute in E1; discriminate).
  destruct (execute_virtual_trade default_exchange after_first_loss
              stopped_sell 100 (1 # 1000) 1704068100)
    as [[|t2|m2] self2'] eqn:E2; try (vm_compute in E2; discriminate).
  exists t1, t2, self1', self2'.
  split; [reflexivity|]. split; [reflexivity|].
  destruct (same_timestamp_trades_collide _ _ _ _ _ _ _ _ _ _ _ _ _ _
              empty_trades E1 E2) as (H1 & H2 & _).
  split; assumption.
Defined.

(** ** The configurations table *)

Section ConfigFacts.

Variable hash : string -> Z.

Lemma save_config_rows tbl json :
  ids_within tbl ->
  existsb (fun r => (config_hash r =? hash json)%Z) (config_rows tbl) = false ->
  config_rows (snd (save_strategy_config hash tbl json))
  = map (fun r => {| config_id := config_id r; config_hash := config_hash r;
                     config_json := config_json r; config_active := false |})
        (config_rows tbl)
    ++ [{| config_id := config_seq tbl + 1; config_hash := hash json;
           config_json := json; config_active := true |}].
Proof.
  intros Hids Hnew. unfold save_strategy_config. rewrite Hnew.
  cbn [snd config_rows]. rewrite map_app. cbn [map config_id].
  rewrite Z.eqb_refl. f_equal.
  apply map_ext_in. intros r Hr. unfold ids_within in Hids.
  rewrite Forall_forall in Hids. specialize (Hids r Hr).
  destruct (Z.eqb_spec (config_id r) (config_seq tbl + 1)); [lia | reflexivity].
Qed.

Lemma filter_active_deactivated rows :
  filter config_active
    (map (fun r => {| config_id := config_id r; config_hash := config_hash r;
                      config_json := config_json r; config_active := false |})
         rows) = [].
Proof. induction rows as [|r rows IH]; simpl; auto. Qed.

End ConfigFacts.

(** X26.  After a successful [save_strategy_config] exactly one row is
    active, the one just saved, under an id no row had before; the ids
    stay within the counter; and saving the same configuration again fails
    on the UNIQUE hash and leaves the table as it was. *)
Theorem saved_config_is_the_only_active (hash : string -> Z)
  (tbl tbl' : ConfigsTable) (json : string) (id : Z) :
  ids_within tbl ->
  save_strategy_config hash tbl json = (inr id, tbl') ->
  filter config_active (config_rows tbl')
  = [{| config_id := id; config_hash := hash json; config_json := json;
        config_active := true |}]
  /\ Forall (fun r => (config_id r < id)%Z) (config_rows tbl)
  /\ ids_within tbl'
  /\ save_strategy_config hash tbl' json = (inl IntegrityError, tbl').
Proof.
  intros Hids H.
  destruct (existsb (fun r => (config_hash r =? hash json)%Z) (config_rows tbl))
    eqn:Hnew.
  { unfold save_strategy_config in H. rewrite Hnew in H. discriminate. }
  pose proof (save_config_rows hash tbl json Hids Hnew) as Hrows.
  rewrite H in Hrows. cbn [snd] in Hrows.
  assert (Hid : id = (config_seq tbl + 1)%Z /\ config_seq tbl' = id).
  { unfold save_strategy_config in H. rewrite Hnew in H.
    injection H as <- <-. split; reflexivity. }
  destruct Hid as [-> Hseq].
  split; [|split; [|split]].
  - rewrite Hrows, filter_app, filter_active_deactivated. reflexivity.
  - unfold ids_within in Hids. rewrite Forall_forall in Hids |- *.
    intros r Hr. specialize (Hids r Hr). lia.
  - unfold ids_within. rewrite Hrows, Hseq. apply Forall_app. split.
    + unfold ids_within in Hids. rewrite Forall_forall in Hids |- *.
      intros r Hr. apply in_map_iff in Hr. destruct Hr as (r0 & <- & Hr0).
      specialize (Hids r0 Hr0). cbn [config_id]. lia.
    + constructor; [cbn [config_id]; lia | constructor].
  - unfold save_strategy_config.
    assert (Hdup : existsb (fun r => (config_hash r =? hash json)%Z)
                     (config_rows tbl') = true).
    { rewrite Hrows, existsb_app. apply orb_true_iff. right.
      cbn [existsb config_hash]. now rewrite Z.eqb_refl. }
    now rewrite Hdup.
Qed.

Lemma saved_config_is_the_only_active_witness :
  exists id tbl',
    save_strategy_config length_hash empty_configs "{}" = (inr id, tbl')
    /\ filter config_active (config_rows tbl')
       = [{| config_id := id; config_hash := length_hash "{}";
             config_json := "{}"; config_active := true |}]
    /\ save_strategy_config length_hash tbl' "{}"
       = (inl IntegrityError, tbl').
Proof.
  destruct (save_strategy_config length_hash empty_configs "{}")
    as [[e|id] tbl'] eqn:E; [vm_compute in E; discriminate|].
  exists id, tbl'. split; [reflexivity|].
  destruct (saved_config_is_the_only_active length_hash empty_configs tbl'
              "{}" id) as (H1 & _ & _ & H4).
  - constructor.
  - exact E.
  - split; assumption.
Defined.

(** ** The bar buffer *)

Section BufferFacts.

Lemma tail_all {A} n (l : list A) : (length l <= n)%nat -> tail n l = l.
Proof.
  intros H. unfold tail. now replace (length l - n)%nat with 0%nat by lia.
Qed.

Lemma tail_snoc {A} n (l : list A) r :
  (1 <= n)%nat -> tail n (tail n l ++ [r]) = tail n (l ++ [r]).
Proof.
  intros Hn. destruct (Nat.le_gt_cases (length l) n) as [Hl | Hl].
  - now rewrite (tail_all n l Hl).
  - unfold tail. rewrite !length_app, length_skipn. cbn [length].
    rewrite !skipn_app, skipn_skipn, !length_skipn.
    replace (length l - (length l - n) + 1 - n
             + (length l - n))%nat with (length l + 1 - n)%nat by lia.
    replace (length l - (length l - n) + 1 - n
             - (length l - (length l - n)))%nat with 0%nat by lia.
    replace (length l + 1 - n - length l)%nat with 0%nat by lia.
    reflexivity.
Qed.

Lemma tail_tail {A} a b (l : list A) : tail a (tail b l) = tail (min a b) l.
Proof.
  unfold tail. rewrite skipn_skipn, length_skipn. f_equal. lia.
Qed.

Lemma store_kline_same buf tf row :
  store_kline buf tf row tf
  = Some (tail 100 (match buf tf with Some l => l | None => [] end ++ [row])).
Proof.
  unfold store_kline. rewrite String.eqb_refl.
  set (rows := _ ++ [row]).
  destruct (Nat.ltb_spec 100 (length rows)); [reflexivity|].
  now rewrite tail_all.
Qed.

Lemma store_kline_other buf tf row k :
  k <> tf -> store_kline buf tf row k = buf k.
Proof.
  intros H. unfold store_kline. apply String.eqb_neq in H. now rewrite H.
Qed.

Lemma feed_snoc tf rows row buf :
  feed tf (rows ++ [row]) buf = store_kline (feed tf rows buf) tf row.
Proof. unfold feed. now rewrite fold_left_app. Qed.

Lemma feed_same tf rows :
  rows <> [] -> feed tf rows empty_buffer tf = Some (tail 100 rows).
Proof.
  induction rows as [|row rows IH] using rev_ind; [intros H; now elim H|].
  intros _. rewrite feed_snoc, store_kline_same.
  destruct rows as [|r0 rows0].
  - reflexivity.
  - rewrite IH by discriminate. now rewrite tail_snoc by lia.
Qed.

Lemma feed_other tf rows buf k :
  k <> tf -> feed tf rows buf k = buf k.
Proof.
  intros H. induction rows as [|row rows IH] using rev_ind; [reflexivity|].
  now rewrite feed_snoc, store_kline_other.
Qed.

End BufferFacts.

(** X27.  The buffer of a timeframe holds the last 100 bars received for
    it, in arrival order, and bars of one timeframe leave the other
    timeframes alone; [get_latest_klines] with a positive [limit] takes
    its rows from the last min([limit], 100) bars received. *)
Theorem buffer_holds_last_hundred (timeframe : string) (rows : list Bar)
  (limit : Z) :
  rows <> [] ->
  feed timeframe rows empty_buffer timeframe = Some (tail 100 rows)
  /\ (forall k buf, k <> timeframe -> feed timeframe rows buf k = buf k)
  /\ ((0 < limit)%Z ->
      latest_rows (feed timeframe rows empty_buffer) timeframe limit
      = tail (min (Z.to_nat limit) 100) rows).
Proof.
  intros Hne. split; [now apply feed_same|].
  split; [intros k buf Hk; now apply feed_other|].
  intros Hl. unfold latest_rows, slice_last. rewrite feed_same by exact Hne.
  apply Z.ltb_lt in Hl. rewrite Hl. apply tail_tail.
Qed.

Lemma buffer_holds_last_hundred_witness :
  feed "15min" (flat 120) empty_buffer "15min"%string
  = Some (tail 100 (flat 120))
  /\ (forall k buf, k <> "15min"%string ->
        feed "15min" (flat 120) buf k = buf k)
  /\ ((0 < 30)%Z ->
      latest_rows (feed "15min" (flat 120) empty_buffer) "15min" 30
      = tail (min (Z.to_nat 30) 100) (flat 120)).
Proof.
  apply (buffer_holds_last_hundred "15min" (flat 120) 30).
  discriminate.
Defined.
